(** * microperi: the serial REPL bridge of [microperi.py]

    A shallow embedding of [src/microperi/microperi.py]: the serial
    connection ([_microbit_connection]), the call shim ([_shim_function]),
    the member scan and the version-keyed cache ([_microbit_wrapper]).

    Python text ([str]) is a list of Unicode code points, a [bytes] value a
    list of [byte].  The builtins the module relies on ([str.strip],
    [str.split], [str.replace], [str.find], slicing, [repr], UTF-8
    [bytes.decode]) are written out below with the behaviour of CPython 3.
    The character tables of [str.isnumeric], [str.isdigit] and
    [str.isprintable] are transcribed for U+0000..U+00FF; further code
    points belong to the Unicode database of the running interpreter and
    count here as non-numeric and printable. The statements that rest on
    one of these tables are made for code points below U+0100.

    The serial port is seen from the program's side: what the peer sends
    is a script ([feed]) of the bytes that arrive during each blocking
    read, and every call made on the port is recorded in a [trace].
    Logging and the messages printed for the user are left out, and so is
    the recursion limit of the interpreter: the statement on repeated
    retries is made for a peer that delivers few enough chunks to stay
    below it. *)

From Stdlib.Strings Require Import String Ascii Byte.
From Stdlib Require Import DecimalString DecimalZ.
From Stdlib Require Import List ZArith NArith Lia Bool.
Import ListNotations.

Set Warnings "-register-all".

(* ===================================================================== *)
(** ** Text and bytes *)
(* ===================================================================== *)

Abbreviation codepoint := N (only parsing).
Abbreviation str := (list N) (only parsing).
Abbreviation bytes := (list byte) (only parsing).

(** A literal of the source, character by character. *)
Definition py (s : string) : str :=
  map N_of_ascii (list_ascii_of_string s).

(** A [bytes] literal of the source ([b"..."]). *)
Definition pyb (s : string) : bytes := list_byte_of_string s.

Definition LF : codepoint := 10%N.
Definition CR : codepoint := 13%N.
Definition TAB : codepoint := 9%N.
Definition BACKSLASH : codepoint := 92%N.
Definition SQUOTE : codepoint := 39%N.
Definition DQUOTE : codepoint := 34%N.

Fixpoint str_eqb (a b : str) : bool :=
  match a, b with
  | [], [] => true
  | x :: a', y :: b' => N.eqb x y && str_eqb a' b'
  | _, _ => false
  end.

(** [s.startswith(p)] *)
Fixpoint startswith (s p : str) {struct p} : bool :=
  match p with
  | [] => true
  | c :: p' =>
      match s with
      | [] => false
      | d :: s' => N.eqb d c && startswith s' p'
      end
  end.

(** [s.endswith(p)] *)
Definition endswith (s p : str) : bool := startswith (rev s) (rev p).

(** [s.find(sub)]: the lowest index where [sub] occurs, or [-1]. *)
Fixpoint find (s sub : str) : Z :=
  if startswith s sub then 0%Z
  else match s with
       | [] => (-1)%Z
       | _ :: s' => let i := find s' sub in
                    if (i <? 0)%Z then (-1)%Z else (i + 1)%Z
       end.

(** [s.replace(old, new)]: occurrences are taken from the left, without
    overlap; [skip] counts the characters of a match still to be dropped. *)
Fixpoint replace_from (old new : str) (skip : nat) (s : str) : str :=
  match s with
  | [] => []
  | c :: s' =>
      match skip with
      | S k => replace_from old new k s'
      | O => if startswith s old
             then new ++ replace_from old new (length old - 1) s'
             else c :: replace_from old new 0 s'
      end
  end.

Definition replace (s old new : str) : str :=
  match old with
  | [] => new ++ flat_map (fun c => c :: new) s
  | _ :: _ => replace_from old new 0 s
  end.

(** [s.split(sep)] for a non-empty separator ([sep] empty raises
    [ValueError] in Python; every separator of the module is a non-empty
    literal). [cur] holds the piece being read, reversed. *)
Fixpoint split_from (sep : str) (skip : nat) (cur : str) (s : str) : list str :=
  match s with
  | [] => [rev cur]
  | c :: s' =>
      match skip with
      | S k => split_from sep k cur s'
      | O => if startswith s sep
             then rev cur :: split_from sep (length sep - 1) [] s'
             else split_from sep 0 (c :: cur) s'
      end
  end.

Definition split (s sep : str) : list str := split_from sep 0 [] s.

(** [sep.join(l)] *)
Fixpoint join (sep : str) (l : list str) : str :=
  match l with
  | [] => []
  | [x] => x
  | x :: rest => x ++ sep ++ join sep rest
  end.

(** [str.isspace] of one character (the whole of Unicode). *)
Definition cp_isspace (c : codepoint) : bool :=
  ((9 <=? c) && (c <=? 13) || (28 <=? c) && (c <=? 32)
   || (c =? 133) || (c =? 160) || (c =? 5760)
   || (8192 <=? c) && (c <=? 8202) || (c =? 8232) || (c =? 8233)
   || (c =? 8239) || (c =? 8287) || (c =? 12288))%N.

Fixpoint lstrip (s : str) : str :=
  match s with
  | [] => []
  | c :: s' => if cp_isspace c then lstrip s' else s
  end.

(** [s.strip()] *)
Definition strip (s : str) : str := rev (lstrip (rev (lstrip s))).

(** Slice bounds as Python clamps them: a negative index counts from the
    end, and both ends are cut to [0 .. len]. *)
Definition clamp (len i : Z) : Z :=
  if (i <? 0)%Z then Z.max 0 (i + len) else Z.min i len.

(** [s[lo:hi]]; an absent bound is [None]. *)
Definition slice (s : str) (lo hi : option Z) : str :=
  let len := Z.of_nat (length s) in
  let l := match lo with Some i => clamp len i | None => 0%Z end in
  let h := match hi with Some i => clamp len i | None => len end in
  firstn (Z.to_nat (h - l)) (skipn (Z.to_nat l) s).

(** [str.isnumeric], [str.isdigit], [str.isdecimal] of one character. *)
Definition cp_isdecimal (c : codepoint) : bool := ((48 <=? c) && (c <=? 57))%N.
Definition cp_isdigit (c : codepoint) : bool :=
  (cp_isdecimal c || (c =? 178) || (c =? 179) || (c =? 185))%N.
Definition cp_isnumeric (c : codepoint) : bool :=
  (cp_isdigit c || (188 <=? c) && (c <=? 190))%N.

(** On a string the predicates hold when it is non-empty and every
    character passes. *)
Definition all_chars (p : codepoint -> bool) (s : str) : bool :=
  match s with [] => false | _ => forallb p s end.
Definition isnumeric := all_chars cp_isnumeric.
Definition isdigit := all_chars cp_isdigit.

(** [str.isprintable] of one character. *)
Definition cp_isprintable (c : codepoint) : bool :=
  negb ((c <? 32) || (127 <=? c) && (c <=? 160) || (c =? 173))%N.

(* ===================================================================== *)
(** ** [repr] of the arguments of a call *)
(* ===================================================================== *)

(** The argument values covered: [None], booleans, integers, text and
    lists of these (floats are left out). *)
Inductive pyval : Type :=
| PyNone
| PyBool (b : bool)
| PyInt (z : Z)
| PyStr (s : str)
| PyList (l : list pyval).

Definition hexdigit (n : N) : codepoint :=
  (if n <? 10 then 48 + n else 87 + n)%N.

Fixpoint hex_width (w : nat) (n : N) : str :=
  match w with
  | O => []
  | S w' => hex_width w' (n / 16)%N ++ [hexdigit (n mod 16)%N]
  end.

(** One character inside a string literal delimited by [quote]. *)
Definition repr_char (quote c : codepoint) : str :=
  if ((c =? quote) || (c =? BACKSLASH))%N then [BACKSLASH; c]
  else if (c =? TAB)%N then [BACKSLASH; 116%N]
  else if (c =? LF)%N then [BACKSLASH; 110%N]
  else if (c =? CR)%N then [BACKSLASH; 114%N]
  else if cp_isprintable c then [c]
  else if (c <? 256)%N then [BACKSLASH; 120%N] ++ hex_width 2 c
  else if (c <? 65536)%N then [BACKSLASH; 117%N] ++ hex_width 4 c
  else [BACKSLASH; 85%N] ++ hex_width 8 c.

Definition contains (c : codepoint) (s : str) : bool := existsb (N.eqb c) s.

(** [repr] of text: single quotes, unless the text holds a single quote
    and no double quote. *)
Definition repr_str (s : str) : str :=
  let quote := if contains SQUOTE s && negb (contains DQUOTE s)
               then DQUOTE else SQUOTE in
  [quote] ++ flat_map (repr_char quote) s ++ [quote].

Definition repr_int (z : Z) : str := py (NilZero.string_of_int (Z.to_int z)).

Fixpoint repr (v : pyval) : str :=
  match v with
  | PyNone => py "None"
  | PyBool true => py "True"
  | PyBool false => py "False"
  | PyInt z => repr_int z
  | PyStr s => repr_str s
  | PyList l => py "[" ++ join (py ", ") (map repr l) ++ py "]"
  end.

(** [int(s)] for a string that passed [isnumeric]: the decimal value when
    every character is a decimal digit, [ValueError] ([None]) otherwise. *)
Definition py_int (s : str) : option Z :=
  if forallb cp_isdecimal s
  then Some (fold_left (fun acc c => (acc * 10 + (Z.of_N c - 48))%Z) s 0%Z)
  else None.

(* ===================================================================== *)
(** ** [bytes.decode()]: strict UTF-8 *)
(* ===================================================================== *)

Definition byte_val (b : byte) : N := Byte.to_N b.

Definition in_range (lo hi n : N) : bool := ((lo <=? n) && (n <=? hi))%N.

(** [None] stands for [UnicodeDecodeError]: a stray or missing
    continuation byte, an overlong form, a surrogate, or a value past
    U+10FFFF. *)
Fixpoint decode (data : bytes) : option str :=
  match data with
  | [] => Some []
  | b0 :: r0 =>
      let n0 := byte_val b0 in
      if (n0 <? 128)%N then option_map (cons n0) (decode r0)
      else if in_range 194 223 n0 then
        match r0 with
        | b1 :: r1 =>
            let n1 := byte_val b1 in
            if in_range 128 191 n1
            then option_map (cons ((n0 - 192) * 64 + (n1 - 128))%N) (decode r1)
            else None
        | _ => None
        end
      else if in_range 224 239 n0 then
        match r0 with
        | b1 :: b2 :: r2 =>
            let n1 := byte_val b1 in
            let n2 := byte_val b2 in
            let lo := (if n0 =? 224 then 160 else 128)%N in
            let hi := (if n0 =? 237 then 159 else 191)%N in
            if in_range lo hi n1 && in_range 128 191 n2
            then option_map
                   (cons ((n0 - 224) * 4096 + (n1 - 128) * 64 + (n2 - 128))%N)
                   (decode r2)
            else None
        | _ => None
        end
      else if in_range 240 244 n0 then
        match r0 with
        | b1 :: b2 :: b3 :: r3 =>
            let n1 := byte_val b1 in
            let n2 := byte_val b2 in
            let n3 := byte_val b3 in
            let lo := (if n0 =? 240 then 144 else 128)%N in
            let hi := (if n0 =? 244 then 143 else 191)%N in
            if in_range lo hi n1 && in_range 128 191 n2 && in_range 128 191 n3
            then option_map
                   (cons ((n0 - 240) * 262144 + (n1 - 128) * 4096
                          + (n2 - 128) * 64 + (n3 - 128))%N)
                   (decode r3)
            else None
        | _ => None
        end
      else None
  end.

(* ===================================================================== *)
(** ** Values, exceptions and the state the module works on *)
(* ===================================================================== *)

(** What [readlines] and [execute] return: text, raw bytes, or [None]. *)
Inductive reply : Type :=
| RStr (s : str)
| RBytes (b : bytes)
| RNone.

(** The objects stored in a [_shim_class] and in [_members]. A dictionary
    is the list of its items in insertion order. *)
Inductive value : Type :=
| VStr (s : str)
| VInt (z : Z)
| VShimClass (d : list (str * value))   (* a [_shim_class] and its [__dict__] *)
| VShimFunction (path : str)            (* [_shim_function(conn, path)] *)
| VCall (path : str).                   (* the bound method [.call] of one *)

Abbreviation dict := (list (list N * value)) (only parsing).

Fixpoint dict_get (d : dict) (key : str) : option value :=
  match d with
  | [] => None
  | (k, v) :: d' => if str_eqb k key then Some v else dict_get d' key
  end.

(** [d[key] = v]: an existing key keeps its place. *)
Fixpoint dict_set (d : dict) (key : str) (v : value) : dict :=
  match d with
  | [] => [(key, v)]
  | (k, v0) :: d' =>
      if str_eqb k key then (k, v) :: d' else (k, v0) :: dict_set d' key v
  end.

Inductive exn : Type :=
| Exception (msg : str)
| TypeError
| IndexError
| ValueError
| AttributeError (msg : str)
| OSError
| PicklingError.

(** What [_determine_variable_type] returns. *)
Inductive decoded (F : Type) : Type :=
| DStr (s : str)
| DInt (z : Z)
| DFloat (f : F).

Arguments DStr {F} s.
Arguments DInt {F} z.
Arguments DFloat {F} f.

(** [_determine_variable_type(s)]. The builtin [float] is not interpreted:
    [to_float] stands for it, [None] being the exception it raises. *)
Definition _determine_variable_type {F : Type} (to_float : str -> option F)
    (s : str) : exn + decoded F :=
  if startswith s [SQUOTE] && endswith s [SQUOTE] then
    inr (DStr (slice s (Some 1%Z) (Some (-1)%Z)))
  else if isdigit s then
    match py_int s with
    | Some z => inr (DInt z)
    | None => inl ValueError
    end
  else
    match to_float s with
    | Some f => inr (DFloat f)
    | None => inl (Exception (py "*** FIXME: do something here ***"))
    end.

(** What is on disk at [_cache_path]: nothing, bytes that are no pickle
    of a dictionary (an emptied or truncated file among them), or the
    pickle of a dictionary. *)
Inductive cache_file : Type :=
| Absent
| Garbled
| Stored (d : dict).

(** The calls made on the serial port, oldest first. *)
Inductive io_event : Type :=
| Wrote (data : str)          (* [conn.write(data.encode())] *)
| ReadLine (data : bytes)     (* [conn.readline()] returned [data] *)
| ReadUntil (data : bytes).   (* [conn.read_until(...)] returned [data] *)

(** The serial port, the cache file and the wrapper's [_members].

    [inbuf] holds the bytes received and not yet read; [feed] lists what
    the peer delivers while each of the coming blocking reads waits (one
    entry per read, nothing once it is used up). A read that does not find
    its terminator returns what it has, as pyserial does at the timeout. *)
Record state : Type := mkState {
  timeout : option Z;         (* [conn.timeout]; [None] blocks *)
  inbuf : bytes;
  feed : list bytes;
  trace : list io_event;
  disk : cache_file;
  disk_writable : bool;       (* whether [open(..., "wb")] and [dump] succeed *)
  disk_opens : bool;          (* when they do not: whether [open] succeeded,
                                 [dump] being what raised *)
  _members : dict
}.

Inductive outcome (A : Type) : Type :=
| Returned (a : A)
| Raised (e : exn)
| OutOfFuel.

Arguments Returned {A} a.
Arguments Raised {A} e.
Arguments OutOfFuel {A}.

(** Computations: a state transformer that returns or raises. *)
Definition M (A : Type) : Type := state -> outcome A * state.

Definition ret {A} (a : A) : M A := fun st => (Returned a, st).

Definition bind {A B} (m : M A) (k : A -> M B) : M B :=
  fun st =>
    match m st with
    | (Returned a, st') => k a st'
    | (Raised e, st') => (Raised e, st')
    | (OutOfFuel, st') => (OutOfFuel, st')
    end.

Definition raise {A} (e : exn) : M A := fun st => (Raised e, st).

(** [try: m  except: handler] with a bare [except]. *)
Definition try_except {A} (m : M A) (handler : M A) : M A :=
  fun st =>
    match m st with
    | (Raised _, st') => handler st'
    | r => r
    end.

Declare Scope py_scope.
Delimit Scope py_scope with py.
Notation "x <- m ;; k" := (bind m (fun x => k))
  (at level 61, m at next level, right associativity) : py_scope.
Notation "m ;; k" := (bind m (fun _ => k))
  (at level 61, right associativity) : py_scope.
Open Scope py_scope.

Definition when (b : bool) (m : M unit) : M unit := if b then m else ret tt.

(* ===================================================================== *)
(** ** [_microbit_connection] *)
(* ===================================================================== *)

Fixpoint bytes_startswith (s p : bytes) {struct p} : bool :=
  match p with
  | [] => true
  | c :: p' =>
      match s with
      | [] => false
      | d :: s' => Byte.eqb d c && bytes_startswith s' p'
      end
  end.

(** Modelled from the spec: the bundled [serial] package (pyserial) is
    not among the sources. A read takes bytes up to and including the
    terminator ("reads all bytes up to the sentinel"), or what there is
    when the terminator does not come. This is the loop of [read_until]:
    one byte at a time until the line read so far ends with [expected].
    [line] is the line so far, reversed. Returns the line and the rest. *)
Fixpoint take_until (expected line buf : bytes) : bytes * bytes :=
  match buf with
  | [] => (rev line, [])
  | c :: rest =>
      if bytes_startswith (c :: line) (rev expected)
      then (rev (c :: line), rest)
      else take_until expected (c :: line) rest
  end.

(** Modelled from the spec: a blocking read of the [serial] package. The
    next entry of [feed] arrives, then bytes are taken up to the
    terminator. *)
Definition port_read (expected : bytes) (st : state) : bytes * state :=
  let arrived := inbuf st ++ hd [] (feed st) in
  let '(line, rest) := take_until expected [] arrived in
  (line, mkState (timeout st) rest (tl (feed st)) (trace st)
                 (disk st) (disk_writable st) (disk_opens st) (_members st)).

Definition log_event (e : io_event) (st : state) : state :=
  mkState (timeout st) (inbuf st) (feed st) (trace st ++ [e])
          (disk st) (disk_writable st) (disk_opens st) (_members st).

Definition set_timeout (t : option Z) : M unit :=
  fun st => (Returned tt,
             mkState t (inbuf st) (feed st) (trace st)
                     (disk st) (disk_writable st) (disk_opens st) (_members st)).

Definition get_timeout : M (option Z) := fun st => (Returned (timeout st), st).

(** The bytes still to come, counting one for each entry of [feed]. *)
Definition pending (st : state) : nat :=
  length (inbuf st) + list_sum (map (fun chunk => S (length chunk)) (feed st)).

Module Connection.

(** [self.conn.readline()] *)
Definition conn_readline : M bytes :=
  fun st => let '(line, st') := port_read [x0a] st in
            (Returned line, log_event (ReadLine line) st').

(** [self.conn.read_until(until_sequence)] *)
Definition conn_read_until (until_sequence : bytes) : M bytes :=
  fun st => let '(line, st') := port_read until_sequence st in
            (Returned line, log_event (ReadUntil line) st').

(** [flush_input]: everything waiting in the input buffer is read and
    dropped. *)
Definition flush_input : M unit :=
  fun st => (Returned tt,
             mkState (timeout st) [] (feed st) (trace st)
                     (disk st) (disk_writable st) (disk_opens st) (_members st)).

(** [write(data)]: [data] and a carriage return go out. The text is
    encoded on its way ([str(data + CR).encode()]), which raises on a
    lone surrogate; text is taken to be free of them, as the literals
    of the module and whatever [decode] yields are. *)
Definition write (data : str) : M unit :=
  fun st => (Returned tt, log_event (Wrote (data ++ [CR])) st).

Definition traceback_marker : str := py "Traceback".

(** [lines] of [handle_potential_invalid_data]. *)
Definition fault_lines (data : str) : list str :=
  split (strip (replace data [CR] [])) [LF].

(** [name = lines[-1].split(" ")[0][:-1]] *)
Definition fault_name (lines : list str) : str :=
  slice (hd [] (split (last lines []) (py " "))) None (Some (-1)%Z).

(** [msg = lines[-1][len(name)+2:]] *)
Definition fault_msg (lines : list str) : str :=
  slice (last lines []) (Some (Z.of_nat (length (fault_name lines)) + 2)%Z) None.

(** The text of the exception raised for a remote traceback. *)
Definition fault_text (name msg : str) : str :=
  py "[the micro:bit raised the following exception] "
    ++ name ++ py ": " ++ msg.

(** [for x in range(...)]: the first [x] whose line starts with the
    marker. *)
Fixpoint first_traceback (lines : list str) (xs : list nat) : option nat :=
  match xs with
  | [] => None
  | x :: xs' =>
      if startswith (nth x lines []) traceback_marker then Some x
      else first_traceback lines xs'
  end.

Definition handle_potential_invalid_data (data : str) : M unit :=
  let lines := fault_lines data in
  if (length lines <=? 0)%nat then ret tt
  else match first_traceback lines (seq 0 (length lines - 1)) with
       | Some _ =>
           raise (Exception (fault_text (fault_name lines) (fault_msg lines)))
       | None => ret tt
       end.

(** The prompt that ends a reply; [until_sequence] is left at this
    default by every caller in the module. *)
Definition until_sequence : bytes := pyb ">>> ".

(** [readlines]; the recursive call of the [except] branch spends one
    unit of [fuel]. The recursion limit of the interpreter, which ends a
    nest of about a thousand retries with [RecursionError], is not part
    of the definition. *)
Fixpoint readlines_fuel (fuel : nat)
    (strip_ decode_ look_for_exceptions flush_after_input : bool) : M reply :=
  match fuel with
  | O => fun st => (OutOfFuel, st)
  | S fuel' =>
      conn_readline ;;
      data <- conn_read_until until_sequence ;;
      when flush_after_input flush_input ;;
      match decode data with
      | Some dataStr =>
          if decode_ then
            if strip_ then
              let dataStr := strip (replace dataStr (py ">>> ") []) in
              when look_for_exceptions
                   (handle_potential_invalid_data dataStr) ;;
              ret (RStr dataStr)
            else ret (RStr dataStr)
          else ret (RBytes data)
      | None =>
          (* except UnicodeDecodeError: the result of the retry is dropped *)
          readlines_fuel fuel' strip_ decode_ look_for_exceptions true ;;
          ret RNone
      end
  end.

Definition readlines
    (strip_ decode_ look_for_exceptions flush_after_input : bool) : M reply :=
  fun st =>
    readlines_fuel (S (pending st))
                   strip_ decode_ look_for_exceptions flush_after_input st.

(** [execute(command, strip, decode, look_for_exceptions, timeout,
    flush_after_input)]; [timeout = None] is the absent argument. *)
Definition execute (command : str)
    (strip_ decode_ look_for_exceptions : bool) (timeout_ : option Z)
    (flush_after_input : bool) : M reply :=
  backup_timeout <- get_timeout ;;
  match timeout_ with
  | Some t => set_timeout (Some t)
  | None => ret tt
  end ;;
  flush_input ;;
  write command ;;
  data <- readlines strip_ decode_ look_for_exceptions flush_after_input ;;
  set_timeout backup_timeout ;;
  ret data.

(** [execute(command)] with every default. *)
Definition execute_default (command : str) : M reply :=
  execute command true true true None true.

Definition post_reset : M unit :=
  execute_default [] ;;
  flush_input.

Definition soft_reset (do_post_reset : bool) : M unit :=
  write [4%N] ;;
  write [] ;;
  flush_input ;;
  write [3%N] ;;
  when do_post_reset post_reset.

End Connection.

(* ===================================================================== *)
(** ** [_shim_function.call]: the expression sent for a call *)
(* ===================================================================== *)

Module ShimFunction.

(** The body of the loop over [args]: append the rendered argument, count
    it, and add a comma while arguments remain. *)
Definition add_arg (rendered : str) (st : str * Z) : str * Z :=
  let '(s, arg_count) := st in
  let s := s ++ rendered in
  let arg_count := (arg_count - 1)%Z in
  if (arg_count >? 0)%Z then (s ++ py ",", arg_count) else (s, arg_count).

Fixpoint loop_args (args : list pyval) (st : str * Z) : str * Z :=
  match args with
  | [] => st
  | arg :: rest => loop_args rest (add_arg (repr arg) st)
  end.

Fixpoint loop_kwargs (kwargs : list (str * pyval)) (st : str * Z) : str * Z :=
  match kwargs with
  | [] => st
  | (key, val) :: rest =>
      loop_kwargs rest (add_arg (key ++ py "=" ++ repr val) st)
  end.

(** The text [s] that [call] hands to [execute]. [kwargs] is the keyword
    dictionary in its iteration order. *)
Definition call_expr (path : str) (args : list pyval)
    (kwargs : list (str * pyval)) : str :=
  let s := path ++ py "(" in
  let arg_count := Z.of_nat (length args + length kwargs) in
  let '(s, arg_count) := loop_args args (s, arg_count) in
  let '(s, _) := loop_kwargs kwargs (s, arg_count) in
  s ++ py ")".

(** [call] of a [_shim_function] bound to [path], with its positional
    and keyword arguments. *)
Definition call (path : str) (args : list pyval)
    (kwargs : list (str * pyval)) : M reply :=
  Connection.execute_default (call_expr path args kwargs).

End ShimFunction.

(* ===================================================================== *)
(** ** [_shim_class] *)
(* ===================================================================== *)

Module ShimClass.

Definition __getattr__ (me : dict) (attr : str) : M value :=
  match dict_get me attr with
  | Some v => ret v
  | None =>
      raise (AttributeError
               (py "Shim class has no attribute '" ++ attr ++ py "'"))
  end.

Definition _set_attr (me : dict) (attr : str) (val : value) : dict :=
  dict_set me attr val.

End ShimClass.

(* ===================================================================== *)
(** ** [_microbit_wrapper] *)
(* ===================================================================== *)

Module Wrapper.

Definition _module_list : list str := [py "microbit"].

(** [reply[lo:hi]]: text is sliced, [None] is not subscriptable. Raw
    bytes do not occur here, [execute] being called with its defaults. *)
Definition subscript (r : reply) (lo hi : option Z) : M str :=
  match r with
  | RStr s => ret (slice s lo hi)
  | _ => raise TypeError
  end.

(** [.call] of the shim function kept under [attr]. *)
Definition call_of (v : value) : M value :=
  match v with
  | VShimFunction path => ret (VCall path)
  | _ => raise (AttributeError (py "call"))
  end.

(** The [for member in members] loop, [body] being one round of it. *)
Fixpoint for_members (body : dict -> str -> M dict) (me : dict)
    (members : list str) : M dict :=
  match members with
  | [] => ret me
  | member :: rest => me' <- body me member ;; for_members body me' rest
  end.

Definition quoted (info : str) : bool :=
  startswith info [DQUOTE] && endswith info [DQUOTE]
  || startswith info [SQUOTE] && endswith info [SQUOTE].

(** One round of the loop of [_scan_member_of]; [scan] is the recursive
    call. *)
Definition scan_member (scan : str -> option str -> M value)
    (my_path : str) (me : dict) (member : str) : M dict :=
  let member := strip member in
  if (length member <=? 0)%nat then ret me
  else
    r <- Connection.execute_default
           (py "repr(" ++ my_path ++ py "." ++ member ++ py ")") ;;
    info <- subscript r (Some 1%Z) (Some (-1)%Z) ;;
    let member_str := my_path ++ member in
    if startswith info (py "<") && endswith info (py ">") then
      let s := slice info (Some 1%Z) (Some (-1)%Z) in
      if str_eqb s (py "function") || str_eqb s (py "bound_method") then
        let shim_func := VShimFunction member_str in
        let me := ShimClass._set_attr me (py "_shim_function_" ++ member)
                                      shim_func in
        f <- ShimClass.__getattr__ me (py "_shim_function_" ++ member) ;;
        c <- call_of f ;;
        ret (ShimClass._set_attr me member c)
      else
        new_member <- scan my_path (Some member) ;;
        ret (ShimClass._set_attr me member new_member)
    else if quoted info then
      ret (ShimClass._set_attr me member
             (VStr (slice info (Some 1%Z) (Some (-1)%Z))))
    else if isnumeric info then
      match py_int info with
      | Some z => ret (ShimClass._set_attr me member (VInt z))
      | None => raise ValueError
      end
    else ret me.

(** [_scan_member_of(module_to_process, member_to_process)]; each level
    of the recursion spends one unit of [fuel]. *)
Fixpoint scan_member_of_fuel (fuel : nat) (module_to_process : str)
    (member_to_process : option str) : M value :=
  match fuel with
  | O => fun st => (OutOfFuel, st)
  | S fuel' =>
      let my_path :=
        match member_to_process with
        | Some m => module_to_process ++ py "." ++ m
        | None => module_to_process
        end in
      r <- Connection.execute_default (py "dir(" ++ my_path ++ py ")") ;;
      listing <- subscript r (Some 2%Z) (Some (-2)%Z) ;;
      let members := split listing (py "', '") in
      me <- for_members (scan_member (scan_member_of_fuel fuel') my_path)
                        [] members ;;
      ret (VShimClass me)
  end.

Definition _scan_member_of (module_to_process : str)
    (member_to_process : option str) : M value :=
  fun st =>
    scan_member_of_fuel (S (pending st))
                        module_to_process member_to_process st.

(** The body of [for module in self._module_list]. *)
Fixpoint for_modules (cache : dict) (modules : list str) : M dict :=
  match modules with
  | [] => ret cache
  | module :: rest =>
      imported <- try_except
                    (Connection.execute_default (py "import " ++ module) ;;
                     ret true)
                    (ret false) ;;
      if imported then
        Connection.flush_input ;;
        scanned <- _scan_member_of module None ;;
        for_modules (dict_set cache module scanned) rest
      else for_modules cache rest
  end.

(** [f = open(self._cache_path, "wb"); pickle.dump(cache, f, protocol=4);
    f.close()], and the [except] branch that raises the exception again.
    [open] empties the file before [pickle.dump] runs: when [open] raises
    the file is as it was, when [pickle.dump] raises what the file held is
    lost and what is left of it is no record. *)
Definition dump (cache : dict) : M unit :=
  fun st =>
    if disk_writable st
    then (Returned tt,
          mkState (timeout st) (inbuf st) (feed st) (trace st)
                  (Stored cache) (disk_writable st) (disk_opens st) (_members st))
    else if disk_opens st
    then (Raised PicklingError,
          mkState (timeout st) (inbuf st) (feed st) (trace st)
                  Garbled (disk_writable st) (disk_opens st) (_members st))
    else (Raised OSError, st).

Definition set_members (cache : dict) : M unit :=
  fun st => (Returned tt,
             mkState (timeout st) (inbuf st) (feed st) (trace st)
                     (disk st) (disk_writable st) (disk_opens st) cache).

Definition _scan_modules (micropython_commit_hash : str) : M unit :=
  Connection.execute_default [4%N] ;;
  Connection.flush_input ;;
  let cache := [(py "ver", VStr micropython_commit_hash)] in
  cache <- for_modules cache _module_list ;;
  dump cache ;;
  set_members cache.

Definition version_error : exn :=
  Exception (py "Error: could not determine MicroPython build version").

(** [while lines[index].isnumeric(): index += 1], [rest] being
    [lines[index:]]; [None] is the [IndexError] of reading past the end. *)
Fixpoint while_numeric (rest : str) (index : Z) : option Z :=
  match rest with
  | [] => None
  | c :: rest' =>
      if cp_isnumeric c then while_numeric rest' (index + 1)%Z
      else Some index
  end.

Definition skip_field (lines : str) (index : Z) : M Z :=
  match while_numeric (skipn (Z.to_nat index) lines) index with
  | Some index' => ret (index' + 1)%Z
  | None => raise IndexError
  end.

(** The commit hash that [_load_ubit_module_cache] reads out of the boot
    text. *)
Definition commit_hash (lines : str) : M str :=
  let index := find lines (py "MicroPython v") in
  if (index <? 0)%Z then raise version_error
  else
    let index := (index + 13)%Z in
    index <- skip_field lines index ;;
    index <- skip_field lines index ;;
    index <- skip_field lines index ;;
    let sindex := find (slice lines (Some index) None) (py " ") in
    if (sindex <? 0)%Z then raise version_error
    else ret (slice lines (Some index) (Some (index + sindex)%Z)).

(** Whether a [_shim_class] is among the values of [cache]. *)
Definition holds_shim_class (cache : dict) : bool :=
  existsb (fun item => match snd item with
                       | VShimClass _ => true
                       | _ => false
                       end) cache.

(** [f = open(self._cache_path, "rb"); cache = pickle.load(f)]; [None]
    is an exception raised there. [pickle.load] builds a [_shim_class]
    without running [__init__] and then asks it for [__setstate__]: the
    lookup ends in [_shim_class.__getattr__], where [self.__dict__] is
    still the class attribute [None], and [attr in None] raises
    [TypeError]. A file that holds a [_shim_class] therefore does not
    load. Text, numbers, shim functions and their bound methods do. *)
Definition pickle_load (f : cache_file) : option dict :=
  match f with
  | Stored cache => if holds_shim_class cache then None else Some cache
  | _ => None
  end.

(** The [try] block that reads the cache file: the stored dictionary
    when it is to be used, [None] when the scan has to run (no file, a
    failed load, no ["ver"], a ["ver"] that is no text or another one). *)
Definition usable_cache (f : cache_file) (micropython_commit_hash : str)
    : option dict :=
  match pickle_load f with
  | Some cache =>
      match dict_get cache (py "ver") with
      | Some (VStr cache_ver) =>
          if str_eqb cache_ver micropython_commit_hash
          then Some cache else None
      | _ => None
      end
  | None => None
  end.

(** The first half of [_load_ubit_module_cache]: reset the peer, read
    its boot text and take the commit hash out of it. *)
Definition read_commit_hash : M str :=
  Connection.flush_input ;;
  Connection.soft_reset false ;;
  r <- Connection.readlines true true true true ;;
  lines <- match r with
           | RStr s => ret s              (* joining the characters of [s] gives [s] *)
           | _ => raise TypeError
           end ;;
  commit_hash lines.

Definition _load_ubit_module_cache : M unit :=
  micropython_commit_hash <- read_commit_hash ;;
  f <- (fun st => (Returned (disk st), st)) ;;
  match usable_cache f micropython_commit_hash with
  | Some cache => set_members cache
  | None => _scan_modules micropython_commit_hash
  end.

Definition __getattr__ (attr : str) : M value :=
  fun st =>
    match dict_get (_members st) attr with
    | Some v => (Returned v, st)
    | None =>
        (Raised (AttributeError
                   (py "Shim class has no attribute '" ++ attr ++ py "'")),
         st)
    end.

End Wrapper.

(* ===================================================================== *)
(** ** Vocabulary of the statements *)
(* ===================================================================== *)

(** The connection as the constructor leaves it (a timeout of one second),
    with a silent peer, no cache file and a writable home directory. *)
Definition idle : state := mkState (Some 1%Z) [] [] [] Absent true true [].

Definition with_feed (f : list bytes) (st : state) : state :=
  mkState (timeout st) (inbuf st) f (trace st)
          (disk st) (disk_writable st) (disk_opens st) (_members st).

Definition with_disk (f : cache_file) (st : state) : state :=
  mkState (timeout st) (inbuf st) (feed st) (trace st)
          f (disk_writable st) (disk_opens st) (_members st).

Definition with_members (d : dict) (st : state) : state :=
  mkState (timeout st) (inbuf st) (feed st) (trace st)
          (disk st) (disk_writable st) (disk_opens st) d.

(** A keyword argument as it is rendered in a call. *)
Definition keyword_arg (kv : str * pyval) : str :=
  fst kv ++ py "=" ++ repr (snd kv).

(** The two loops of [call] seen as one loop over rendered arguments. *)
Fixpoint loop_items (items : list str) (st : str * Z) : str * Z :=
  match items with
  | [] => st
  | x :: rest => loop_items rest (ShimFunction.add_arg x st)
  end.

Definition is_read (e : io_event) : Prop :=
  match e with
  | Wrote _ => False
  | _ => True
  end.

Definition is_read_until (e : io_event) : bool :=
  match e with
  | ReadUntil _ => true
  | _ => false
  end.

(** The number of [read_until] calls in a trace: the attempts [readlines]
    made. *)
Definition attempts (tr : list io_event) : nat :=
  length (filter is_read_until tr).

(** The first three statements of [readlines]: one echo line and one
    reply are read, and the input is flushed when asked. *)
Definition first_read (flush_after_input : bool) : M bytes :=
  Connection.conn_readline ;;
  data <- Connection.conn_read_until Connection.until_sequence ;;
  when flush_after_input Connection.flush_input ;;
  ret data.

Definition CRLF : bytes := [x0d; x0a].

(** What a peer sends for one command: the echoed line, then the output
    and the prompt. *)
Definition answer (output : bytes) : list bytes :=
  [pyb "echo" ++ CRLF; output ++ CRLF ++ pyb ">>> "].

(** Undecodable replies, each behind an empty echo line. *)
Definition noise (replies : list bytes) : list bytes :=
  flat_map (fun g => [[]; g]) replies.

Definition noise_events (replies : list bytes) : list io_event :=
  flat_map (fun g => [ReadLine []; ReadUntil g]) replies.

(** What [readlines] does with the bytes of its first read. *)
Definition after_read (retry : M reply)
    (strip_ decode_ look_for_exceptions : bool) (data : bytes) : M reply :=
  match decode data with
  | Some dataStr =>
      if decode_ then
        if strip_ then
          let dataStr := strip (replace dataStr (py ">>> ") []) in
          when look_for_exceptions
               (Connection.handle_potential_invalid_data dataStr) ;;
          ret (RStr dataStr)
        else ret (RStr dataStr)
      else ret (RBytes data)
  | None => retry ;; ret RNone
  end.

Definition reply_size (r : reply) : nat :=
  match r with
  | RStr t => length t
  | _ => 0
  end.

(** The effect of one (complete) call: no fuel runs out, the timeout is
    untouched, the port is only read, and a returned text is no longer
    than what was taken from the port. *)
Definition reads_only {A} (size : A -> nat) (m : M A) (st : state) : Prop :=
  fst (m st) <> OutOfFuel
  /\ timeout (snd (m st)) = timeout st
  /\ (exists evs, trace (snd (m st)) = trace st ++ evs
                  /\ Forall is_read evs /\ 1 <= attempts evs)
  /\ (forall a, fst (m st) = Returned a ->
                pending (snd (m st)) + size a <= pending st)
  /\ pending (snd (m st)) <= pending st.

(** The state in which [execute] starts to read: the timeout overridden
    when one is given, the input flushed, the command written. *)
Definition sent (command : str) (timeout_ : option Z) (st : state) : state :=
  mkState (match timeout_ with Some t => Some t | None => timeout st end)
          [] (feed st) (trace st ++ [Wrote (command ++ [CR])])
          (disk st) (disk_writable st) (disk_opens st) (_members st).

Definition with_timeout (t : option Z) (st : state) : state :=
  mkState t (inbuf st) (feed st) (trace st)
          (disk st) (disk_writable st) (disk_opens st) (_members st).

(** The reply of a peer that raised [ZeroDivisionError]. *)
Definition traceback_reply : bytes :=
  pyb "Traceback (most recent call last):" ++ CRLF
  ++ pyb "  File <stdin>, line 1, in <module>" ++ CRLF
  ++ pyb "ZeroDivisionError: division by zero".

(** The state once the undecodable [replies] have been read: [rest] is
    what the peer still has to deliver. *)
Definition after_noise (replies : list bytes) (rest : list bytes)
    (st : state) : state :=
  mkState (timeout st) [] rest (trace st ++ noise_events replies)
          (disk st) (disk_writable st) (disk_opens st) (_members st).


(** The code points for which the tables of [str.isprintable] and
    [str.isnumeric] are written out: U+0000..U+00FF. *)
Definition latin1 (c : codepoint) : bool := (c <? 256)%N.

(** Text that [repr] copies unchanged between [quote]s: printable
    characters below U+0100 other than the quote and the backslash. *)
Definition plain (quote : codepoint) (s : str) : bool :=
  forallb (fun c => latin1 c && cp_isprintable c && negb (c =? quote)%N
                    && negb (c =? BACKSLASH)%N) s.

(** A character below U+0100 that is not numeric: what ends a numeric
    field of the banner. *)
Definition non_numeric (c : codepoint) : bool :=
  latin1 c && negb (cp_isnumeric c).

(** Text that [str.encode] takes: every code point is one of Unicode
    (up to U+10FFFF) and no surrogate (U+D800..U+DFFF). *)
Definition encodable (s : str) : bool :=
  forallb (fun c => ((c <? 55296) || (57343 <? c) && (c <=? 1114111))%N) s.


Definition SPACE : codepoint := 32%N.

(** The text of the fault example: a traceback of three lines that ends
    in [ValueError: bad input]. *)
Definition fault_example : str :=
  py "Traceback (most recent call last):" ++ [LF] ++ py "..." ++ [LF]
  ++ py "ValueError: bad input".

(** The banner the boot text is searched for. *)
Definition banner : str := py "MicroPython v".

(** The banner format in the words of the specification: the text holds
    [MicroPython v], then three fields of decimal digits, each followed by
    a dot or a dash, then a revision token that a space ends. *)
Definition is_separator (c : codepoint) : bool := ((c =? 46) || (c =? 45))%N.

Fixpoint span_decimal (s : str) : str * str :=
  match s with
  | [] => ([], [])
  | c :: s' =>
      if cp_isdecimal c
      then let '(d, rest) := span_decimal s' in (c :: d, rest)
      else ([], s)
  end.

(** One numeric field and its separator; what follows them. *)
Definition numeric_field (s : str) : option str :=
  match span_decimal s with
  | (_ :: _, c :: rest) => if is_separator c then Some rest else None
  | _ => None
  end.

Definition version_at (s : str) : bool :=
  match numeric_field s with
  | Some s1 =>
      match numeric_field s1 with
      | Some s2 =>
          match numeric_field s2 with
          | Some (c :: token) =>
              negb (c =? SPACE)%N && contains SPACE token
          | _ => false
          end
      | None => false
      end
  | None => false
  end.

Fixpoint banner_well_formed (lines : str) : bool :=
  startswith lines banner && version_at (skipn 13 lines)
  || match lines with
     | [] => false
     | _ :: rest => banner_well_formed rest
     end.

(** A peer that answers [repr(microbit.NAME)] with the text ['hello']
    (shown by the prompt in double quotes). *)
Definition name_reply_state : state :=
  with_feed (answer ([x22] ++ pyb "'hello'" ++ [x22])) idle.

Definition name_command : str := py "repr(microbit.NAME)".

(** A computation that ends (no fuel runs out) and takes nothing back to
    the port. *)
Definition quiet {A} (m : M A) (st : state) : Prop :=
  fst (m st) <> OutOfFuel /\ pending (snd (m st)) <= pending st.

(** The boot text of a build whose commit hash is [hash]. *)
Definition boot_feed (hash : string) : list bytes :=
  [pyb "MPY: soft reboot" ++ CRLF;
   pyb "MicroPython v1.7-9-" ++ pyb hash
   ++ pyb " on 2016-04-18; micro:bit with nRF51822" ++ CRLF ++ pyb ">>> "].

(** A cache record written for the build [abc123]. *)
Definition abc123_record : list (list N * value) :=
  [(py "ver", VStr (py "abc123"));
   (py "microbit",
    VShimClass [(py "_shim_function_sleep", VShimFunction (py "microbitsleep"));
                (py "sleep", VCall (py "microbitsleep"))])].

(** A peer whose [microbit] module has the one member [sleep], a
    function. *)
Definition sleep_feed : list bytes :=
  answer (pyb "['sleep']") ++ answer (pyb "'<function>'").


(** A computation that leaves the cache file and [_members] as they
    are. *)
Definition keeps {A} (m : M A) (st : state) : Prop :=
  disk (snd (m st)) = disk st
  /\ disk_writable (snd (m st)) = disk_writable st
  /\ disk_opens (snd (m st)) = disk_opens st
  /\ _members (snd (m st)) = _members st.

(** A chunk that a read up to [expected] takes whole: its first
    [expected] is at its end, or it holds none. *)
Definition taken_whole (expected chunk : list byte) : Prop :=
  take_until expected [] chunk = (chunk, []).

(** [pattern] shows somewhere in [s]. *)
Fixpoint occurs (pattern s : list N) : bool :=
  startswith s pattern
  || match s with
     | [] => false
     | _ :: s' => occurs pattern s'
     end.

(** No line of [t] but the last begins with [Traceback]. *)
Definition no_traceback (t : list N) : Prop :=
  forall x, x < length (Connection.fault_lines t) - 1 ->
            startswith (nth x (Connection.fault_lines t) [])
                       Connection.traceback_marker = false.

(** What a peer sends after the echo for the output [out]: the output, a
    line end and the prompt. *)
Definition framed (out : list byte) : list byte :=
  out ++ CRLF ++ Connection.until_sequence.

(** The state [execute] leaves when it has read the echo line [echo] and
    the reply [reply] of a command: the two entries of [feed] are used,
    the input is empty, and the trace has the write and the two reads. *)
Definition answered (command : list N) (echo reply : list byte)
    (rest : list (list byte)) (st : state) : state :=
  mkState (timeout st) [] rest
          (trace st ++ [Wrote (command ++ [CR]); ReadLine echo;
                        ReadUntil reply])
          (disk st) (disk_writable st) (disk_opens st) (_members st).

(** The path [_scan_member_of] works on. *)
Definition path_of (module_to_process : list N)
    (member_to_process : option (list N)) : list N :=
  match member_to_process with
  | Some m => module_to_process ++ py "." ++ m
  | None => module_to_process
  end.

(** The command that lists the members at a path. *)
Definition dir_command (my_path : list N) : list N :=
  py "dir(" ++ my_path ++ py ")".

(** The round of [int]: one more decimal digit. *)
Definition add_digit (acc : Z) (c : N) : Z := (acc * 10 + (Z.of_N c - 48))%Z.

(** The command that fetches the repr of a member. *)
Definition repr_command (my_path member : list N) : list N :=
  py "repr(" ++ my_path ++ py "." ++ member ++ py ")".

(** A peer that answers [repr(microbit.N)] with ['1200'], and one that
    answers with ['-5']. *)
Definition number_reply_state : state :=
  with_feed (answer (pyb "'1200'")) idle.

Definition negative_reply_state : state :=
  with_feed (answer (pyb "'-5'")) idle.

(** The state after [flush_input] and [soft_reset(do_post_reset=False)]:
    the input is empty and the three control lines have been written. *)
Definition after_soft_reset (st : state) : state :=
  mkState (timeout st) [] (feed st)
          (trace st ++ [Wrote [4%N; CR]; Wrote [CR]; Wrote [3%N; CR]])
          (disk st) (disk_writable st) (disk_opens st) (_members st).

(* ===================================================================== *)
(** ** The expression of a call *)
(* ===================================================================== *)

Section CallExpression.

Import ShimFunction.

Lemma loop_args_items args st :
  loop_args args st = loop_items (map repr args) st.
Proof.
  revert st. induction args as [|a args IH]; intros st; simpl; auto.
Qed.

Lemma loop_kwargs_items kwargs st :
  loop_kwargs kwargs st = loop_items (map keyword_arg kwargs) st.
Proof.
  revert st. induction kwargs as [|[k v] kwargs IH]; intros st; simpl; auto.
Qed.

Lemma loop_items_app a b st :
  loop_items (a ++ b) st = loop_items b (loop_items a st).
Proof.
  revert st. induction a as [|x a IH]; intros st; simpl; auto.
Qed.

Lemma loop_items_join items s :
  loop_items items (s, Z.of_nat (length items))
  = (s ++ join (py ",") items, 0%Z).
Proof.
  revert s. induction items as [|x rest IH]; intros s.
  - simpl. now rewrite app_nil_r.
  - cbn [loop_items add_arg].
    replace (Z.of_nat (length (x :: rest)) - 1)%Z
      with (Z.of_nat (length rest)) by (cbn [length]; lia).
    destruct rest as [|y rest'].
    + reflexivity.
    + replace (Z.of_nat (length (y :: rest')) >? 0)%Z with true
        by (symmetry; apply Z.gtb_lt; cbn [length]; lia).
      rewrite IH. cbn [join]. now rewrite <- !app_assoc.
Qed.

Lemma call_expr_join path args kwargs :
  call_expr path args kwargs
  = path ++ py "(" ++
    join (py ",") (map repr args ++ map keyword_arg kwargs) ++ py ")".
Proof.
  unfold call_expr.
  rewrite loop_args_items.
  destruct (loop_items (map repr args) _) as [s1 c1] eqn:E1.
  rewrite loop_kwargs_items.
  destruct (loop_items (map keyword_arg kwargs) _) as [s2 c2] eqn:E2.
  rewrite <- E1, <- loop_items_app in E2.
  replace (length args + length kwargs)%nat
    with (length (map repr args ++ map keyword_arg kwargs)) in E2
    by (now rewrite length_app, !length_map).
  rewrite loop_items_join in E2. inversion E2; subst.
  now rewrite <- !app_assoc.
Qed.

End CallExpression.

(* ===================================================================== *)
(** ** Reading from the port *)
(* ===================================================================== *)

Section Reading.

Import Connection.

Lemma take_until_split expected line buf :
  forall out rest, take_until expected line buf = (out, rest) ->
  out ++ rest = rev line ++ buf.
Proof.
  revert line. induction buf as [|c buf IH]; intros line out rest H.
  - simpl in H. inversion H; subst. reflexivity.
  - cbn [take_until] in H.
    destruct (bytes_startswith (c :: line) (rev expected)).
    + inversion H; subst. cbn [rev]. now rewrite <- app_assoc.
    + apply IH in H. rewrite H. cbn [rev]. now rewrite <- app_assoc.
Qed.

Lemma port_read_spec expected st :
  forall line st', port_read expected st = (line, st') ->
  pending st' + length line <= pending st
  /\ timeout st' = timeout st /\ trace st' = trace st
  /\ feed st' = tl (feed st)
  /\ line ++ inbuf st' = inbuf st ++ hd [] (feed st).
Proof.
  intros line st'. unfold port_read.
  destruct (take_until expected [] (inbuf st ++ hd [] (feed st)))
    as [out rest] eqn:E.
  intros H. inversion H; subst. clear H.
  apply take_until_split in E. simpl in E.
  assert (L : length line + length rest
              = length (inbuf st) + length (hd [] (feed st)))
    by (now rewrite <- !length_app, E).
  unfold pending. simpl.
  repeat split; auto.
  destruct (feed st) as [|chunk f]; simpl in *; lia.
Qed.

Lemma first_read_spec flush_after_input st :
  exists echo data st1,
    first_read flush_after_input st = (Returned data, st1)
    /\ pending st1 + length data <= pending st
    /\ timeout st1 = timeout st
    /\ trace st1 = trace st ++ [ReadLine echo; ReadUntil data]
    /\ feed st1 = tl (tl (feed st))
    /\ (flush_after_input = true -> inbuf st1 = []).
Proof.
  unfold first_read, conn_readline, conn_read_until, bind.
  destruct (port_read [x0a] st) as [echo sta] eqn:Ea.
  destruct (port_read until_sequence (log_event (ReadLine echo) sta))
    as [data stb] eqn:Eb.
  apply port_read_spec in Ea. apply port_read_spec in Eb.
  destruct Ea as (Pa & Ta & Tra & Fa & _).
  destruct Eb as (Pb & Tb & Trb & Fb & _).
  unfold pending in *. simpl in *.
  rewrite Fb, Fa in Pb. rewrite Fa in Pa.
  exists echo, data.
  destruct flush_after_input; simpl; eexists; (split; [reflexivity|]);
    simpl; rewrite ?Trb, ?Tb, ?Ta, ?Tra, ?Fb, ?Fa, <- ?app_assoc;
    repeat split; auto; try lia; try discriminate.
Qed.

Lemma readlines_fuel_step fuel s d l fl st data st1 :
  first_read fl st = (Returned data, st1) ->
  readlines_fuel (S fuel) s d l fl st
  = after_read (readlines_fuel fuel s d l true) s d l data st1.
Proof.
  unfold first_read, after_read. cbn [readlines_fuel].
  unfold bind at 1 2 3 4 5 6.
  destruct (conn_readline st) as [[echo| |] sta] eqn:Ea;
    try (intros H; discriminate H).
  destruct (conn_read_until until_sequence sta) as [[dat| |] stb] eqn:Eb;
    try (intros H; discriminate H).
  destruct (when fl flush_input stb) as [[[]| |] stc] eqn:Ec;
    try (intros H; discriminate H).
  unfold ret at 1. intros H. inversion H; subst. reflexivity.
Qed.

Lemma decode_none_nonempty data : decode data = None -> 1 <= length data.
Proof. destruct data; simpl; [discriminate | lia]. Qed.

Lemma readlines_fuel_enough f1 :
  forall f2 s d l fl st,
    pending st < f1 -> pending st < f2 ->
    readlines_fuel f1 s d l fl st = readlines_fuel f2 s d l fl st.
Proof.
  induction f1 as [|f1 IH]; intros f2 s d l fl st H1 H2; [lia|].
  destruct f2 as [|f2]; [lia|].
  destruct (first_read_spec fl st) as (echo & data & st1 & E & P & _).
  rewrite !(readlines_fuel_step _ s d l _ _ _ _ E).
  unfold after_read.
  destruct (decode data) eqn:D; auto.
  apply decode_none_nonempty in D.
  unfold bind. rewrite (IH f2) by lia. reflexivity.
Qed.

(** [readlines] unfolded once, without fuel. *)
Lemma readlines_eq s d l fl st data st1 :
  first_read fl st = (Returned data, st1) ->
  readlines s d l fl st = after_read (readlines s d l true) s d l data st1.
Proof.
  intros E. unfold readlines at 1.
  rewrite (readlines_fuel_step _ s d l _ _ _ _ E).
  unfold after_read.
  destruct (decode data) eqn:D; auto.
  destruct (first_read_spec fl st) as (echo & data' & st1' & E' & P & _).
  rewrite E in E'. inversion E'; subst data' st1'.
  apply decode_none_nonempty in D.
  unfold bind, readlines.
  rewrite (readlines_fuel_enough (pending st) (S (pending st1)))
    by lia.
  reflexivity.
Qed.

End Reading.

(* ===================================================================== *)
(** ** Lengths: what the builtins can only shorten *)
(* ===================================================================== *)

Lemma lstrip_length s : length (lstrip s) <= length s.
Proof.
  induction s as [|c s IH]; simpl; auto.
  destruct (cp_isspace c); simpl; lia.
Qed.

Lemma strip_length s : length (strip s) <= length s.
Proof.
  unfold strip. rewrite length_rev.
  etransitivity; [apply lstrip_length|].
  rewrite length_rev. apply lstrip_length.
Qed.

Lemma replace_from_length old skip s :
  length (replace_from old [] skip s) <= length s.
Proof.
  revert skip. induction s as [|c s IH]; intros skip;
    cbn [replace_from length]; auto.
  destruct skip as [|k].
  - destruct (startswith (c :: s) old); cbn [app length].
    + specialize (IH (length old - 1)). lia.
    + specialize (IH 0). lia.
  - specialize (IH k). lia.
Qed.

Lemma replace_length s old : old <> [] -> length (replace s old []) <= length s.
Proof.
  intros H. unfold replace. destruct old; [congruence|].
  apply replace_from_length.
Qed.

Lemma decode_length_bound n :
  forall data t, length data <= n -> decode data = Some t ->
  length t <= length data.
Proof.
  induction n as [|n IH]; intros data t L D.
  - destruct data; [|simpl in L; lia]. simpl in D. inversion D. auto.
  - destruct data as [|b0 r0]; [simpl in D; inversion D; auto|].
    cbn [decode] in D. cbn [length] in L.
    repeat match type of D with
    | (if ?c then _ else _) = _ => destruct c
    | match ?r with [] => _ | _ :: _ => _ end = _ =>
        destruct r; cbn [length] in L
    | None = Some _ => discriminate D
    | option_map _ (decode ?r) = Some _ =>
        let E := fresh "E" in
        destruct (decode r) eqn:E; cbn [option_map] in D;
        [ inversion D; subst; apply IH in E; cbn [length]; lia
        | discriminate D ]
    end.
Qed.

Lemma decode_length data t : decode data = Some t -> length t <= length data.
Proof. apply (decode_length_bound (length data)). lia. Qed.

(* ===================================================================== *)
(** ** [readlines] and [execute]: what they leave behind *)
(* ===================================================================== *)

Section Frames.

Import Connection.

Lemma handle_cases data st :
  handle_potential_invalid_data data st = (Returned tt, st)
  \/ exists e, handle_potential_invalid_data data st = (Raised e, st).
Proof.
  unfold handle_potential_invalid_data.
  destruct (length (fault_lines data) <=? 0); [now left|].
  destruct (first_traceback _ _); [right; eexists; reflexivity | now left].
Qed.

Opaque replace.

Lemma readlines_reads_only_bound n :
  forall s d l fl st, pending st < n ->
  reads_only reply_size (readlines s d l fl) st.
Proof.
  induction n as [|n IH]; intros s d l fl st Hn; [lia|].
  destruct (first_read_spec fl st)
    as (echo & data & st1 & E & P & T & Tr & _).
  unfold reads_only. rewrite (readlines_eq s d l _ _ _ _ E).
  assert (A1 : 1 <= attempts [ReadLine echo; ReadUntil data])
    by (unfold attempts; simpl; lia).
  assert (R1 : Forall is_read [ReadLine echo; ReadUntil data])
    by (repeat constructor).
  unfold after_read. destruct (decode data) as [t|] eqn:D.
  - apply decode_length in D.
    assert (Hs : length (strip (replace t (py ">>> ") [])) <= length t).
    { etransitivity; [apply strip_length|].
      apply replace_length. discriminate. }
    destruct d; [destruct s; [destruct l|]|]; cbn [when];
      unfold bind, ret; cbn [fst snd];
      try (destruct (handle_cases (strip (replace t (py ">>> ") [])) st1)
             as [Hh|[e Hh]]; rewrite Hh; cbn [fst snd]);
      (split; [discriminate|]);
      (split; [assumption|]);
      (split; [exists [ReadLine echo; ReadUntil data]; now auto|]);
      (split; [|lia]);
      intros a [= <-]; cbn [reply_size]; lia.
  - apply decode_none_nonempty in D.
    destruct (IH s d l true st1 ltac:(lia))
      as (F & T' & (evs & Tr' & R' & A') & Sz & P').
    unfold bind, ret.
    destruct (readlines s d l true st1) as [[r| e |] st2];
      cbn [fst snd] in *; try congruence;
      (split; [discriminate|]);
      (split; [congruence|]);
      (split; [exists ([ReadLine echo; ReadUntil data] ++ evs);
               rewrite Tr', Tr, <- app_assoc;
               repeat split; auto;
               [ apply Forall_app; auto
               | unfold attempts in *; rewrite filter_app, length_app; lia ]
              |]);
      (split; [|lia]);
      intros a [= <-]; cbn [reply_size]; lia.
Qed.

Transparent replace.

Lemma readlines_reads_only s d l fl st :
  reads_only reply_size (readlines s d l fl) st.
Proof. apply (readlines_reads_only_bound (S (pending st))). lia. Qed.

End Frames.

Section Execute.

Import Connection.

(** [execute] is [readlines] in the state [sent] prepares, followed by
    the restoring assignment when [readlines] returns. *)
Lemma execute_eq command s d l t fl st :
  execute command s d l t fl st
  = match readlines s d l fl (sent command t st) with
    | (Returned data, st') => (Returned data, with_timeout (timeout st) st')
    | other => other
    end.
Proof.
  unfold execute, bind, get_timeout.
  destruct t as [t|]; cbn [set_timeout ret flush_input write];
    unfold log_event; cbn [timeout inbuf feed trace disk disk_writable disk_opens _members];
    unfold sent;
    match goal with
    | |- context [readlines s d l fl ?x] =>
        destruct (readlines s d l fl x) as [[data|e|] st']
    end; reflexivity.
Qed.

Lemma pending_sent command t st : pending (sent command t st) <= pending st.
Proof. unfold pending, sent. simpl. lia. Qed.

Lemma execute_reads_only command s d l t fl st :
  fst (execute command s d l t fl st) <> OutOfFuel
  /\ (exists evs,
        trace (snd (execute command s d l t fl st))
        = trace st ++ Wrote (command ++ [CR]) :: evs
        /\ Forall is_read evs)
  /\ (forall a, fst (execute command s d l t fl st) = Returned a ->
        pending (snd (execute command s d l t fl st)) + reply_size a
        <= pending st)
  /\ pending (snd (execute command s d l t fl st)) <= pending st.
Proof.
  rewrite execute_eq.
  destruct (readlines_reads_only s d l fl (sent command t st))
    as (F & _ & (evs & Tr & R & _) & Sz & P).
  pose proof (pending_sent command t st) as Ps.
  destruct (readlines s d l fl (sent command t st)) as [[data|e|] st'];
    cbn [fst snd] in *; try congruence;
    (split; [discriminate|]);
    (split; [exists evs; unfold with_timeout; cbn [trace];
             rewrite Tr; unfold sent; cbn [trace];
             now rewrite <- app_assoc|]);
    (split; [|unfold pending, with_timeout in *; cbn [inbuf feed] in *; lia]);
    intros a [= <-].
  specialize (Sz data eq_refl).
  unfold pending, with_timeout in *; cbn [inbuf feed] in *; lia.
Qed.

(** On the path where [execute] returns, the timeout it found is back. *)
Lemma execute_return_restores_timeout command s d l t fl st r st' :
  execute command s d l t fl st = (Returned r, st') ->
  timeout st' = timeout st.
Proof.
  rewrite execute_eq.
  destruct (readlines s d l fl (sent command t st)) as [[data|e|] st1];
    intros [= <- <-]. reflexivity.
Qed.

(** On the path where it raises, the override stays. *)
Lemma execute_raise_keeps_override command s d l t fl st e st' :
  execute command s d l (Some t) fl st = (Raised e, st') ->
  timeout st' = Some t.
Proof.
  rewrite execute_eq.
  destruct (readlines_reads_only s d l fl (sent command (Some t) st))
    as (_ & T & _).
  destruct (readlines s d l fl (sent command (Some t) st))
    as [[data|e1|] st1]; intros [= <- <-].
  exact T.
Qed.

End Execute.

(** [C1], as the code stands. A command is run with a timeout of five
    seconds on a connection whose timeout is one second, and the peer
    answers with a traceback: [execute] raises, and the timeout of the
    connection is five seconds afterwards, not the one second it had. *)
Theorem execute_fault_leaves_override :
  let st := with_feed (answer traceback_reply) idle in
  exists msg st',
    Connection.execute (py "1/0") true true true (Some 5%Z) true st
    = (Raised (Exception msg), st')
    /\ timeout st = Some 1%Z
    /\ timeout st' = Some 5%Z.
Proof.
  cbv zeta. eexists. eexists. split; [vm_compute; reflexivity|].
  split; reflexivity.
Qed.

(** [C5], the example as claimed: the text sent for
    [scroll("Hi", 100)] is not the one with double quotes around [Hi]. *)
Lemma call_expr_example_not_double_quoted :
  ShimFunction.call_expr (py "microbit.display.scroll")
                         [PyStr (py "Hi"); PyInt 100] []
  <> py "microbit.display.scroll(" ++ [DQUOTE] ++ py "Hi" ++ [DQUOTE]
     ++ py ",100)".
Proof. vm_compute. discriminate. Qed.

(** [C5], amended. The expression of a call is the bound path followed by
    the arguments in brackets: the [repr] of each positional argument, then
    [name=repr] for each keyword argument, joined by commas. That text and
    a carriage return is the one thing [call] writes to the port; and a
    callable bound to [microbit.display.scroll] called with ["Hi"] and
    [100] sends [microbit.display.scroll('Hi',100)]. *)
Theorem call_sends_joined_arguments :
  forall path args kwargs st,
    ShimFunction.call_expr path args kwargs
    = path ++ py "(" ++
      join (py ",") (map repr args ++ map keyword_arg kwargs) ++ py ")"
    /\ (exists evs,
          trace (snd (ShimFunction.call path args kwargs st))
          = trace st
            ++ Wrote (ShimFunction.call_expr path args kwargs ++ [CR]) :: evs
          /\ Forall is_read evs)
    /\ ShimFunction.call_expr (py "microbit.display.scroll")
                              [PyStr (py "Hi"); PyInt 100] []
       = py "microbit.display.scroll('Hi',100)".
Proof.
  intros path args kwargs st. split; [apply call_expr_join|]. split.
  - unfold ShimFunction.call, Connection.execute_default.
    apply execute_reads_only.
  - vm_compute. reflexivity.
Qed.

(* ===================================================================== *)
(** ** Replies that do not decode *)
(* ===================================================================== *)

Section Undecodable.

Import Connection.






End Undecodable.




(** [C10], as claimed: the first reply does not decode and the retry
    reads a traceback. [readlines] and [execute] do not return [None]:
    they raise. *)
Lemma readlines_retry_fault_is_raised :
  let st := with_feed (noise [[xff]] ++ answer traceback_reply) idle in
  (exists st1, first_read true st = (Returned [xff], st1))
  /\ decode [xff] = None
  /\ (exists msg st',
        Connection.readlines true true true true st
        = (Raised (Exception msg), st'))
  /\ (exists msg st',
        Connection.execute (py "1/0") true true true None true st
        = (Raised (Exception msg), st')).
Proof.
  cbv zeta. split; [eexists; vm_compute; reflexivity|].
  split; [reflexivity|].
  split; eexists; eexists; vm_compute; reflexivity.
Qed.

(** [C10], amended. When the bytes first read do not decode, what the
    retry returns is never handed on: [readlines] returns [None] when the
    retry returns, and raises what the retry raises. So does [execute],
    which returns [None] whenever it returns. *)
Theorem readlines_drops_retry_result :
  forall s d l fl st data st1,
    first_read fl st = (Returned data, st1) ->
    decode data = None ->
    Connection.readlines s d l fl st
    = match Connection.readlines s d l true st1 with
      | (Returned _, st2) => (Returned RNone, st2)
      | other => other
      end
    /\ fst (Connection.readlines s d l fl st) <> OutOfFuel
    /\ (forall r st', Connection.readlines s d l fl st = (Returned r, st') ->
                      r = RNone)
    /\ (forall command t st0 r st',
          st = sent command t st0 ->
          Connection.execute command s d l t fl st0 = (Returned r, st') ->
          r = RNone).
Proof.
  intros s d l fl st data st1 E D.
  assert (Eq : Connection.readlines s d l fl st
               = match Connection.readlines s d l true st1 with
                 | (Returned _, st2) => (Returned RNone, st2)
                 | other => other
                 end).
  { rewrite (readlines_eq s d l _ _ _ _ E). unfold after_read.
    rewrite D. unfold bind, ret.
    destruct (Connection.readlines s d l true st1) as [[r|e|] st2];
      reflexivity. }
  assert (Ret : forall r st',
             Connection.readlines s d l fl st = (Returned r, st') ->
             r = RNone).
  { intros r st'. rewrite Eq.
    destruct (Connection.readlines s d l true st1) as [[r1|e|] st2];
      intros [= <- <-]. reflexivity. }
  split; [exact Eq|]. split; [apply readlines_reads_only|].
  split; [exact Ret|].
  intros command t st0 r st' -> H.
  rewrite execute_eq in H.
  destruct (Connection.readlines s d l fl (sent command t st0))
    as [[r1|e|] st2] eqn:R; inversion H; subst.
  eapply Ret. reflexivity.
Qed.

(** [C10]: one undecodable reply, then [42]. *)
Lemma readlines_drops_retry_result_witness :
  let st := with_feed (noise [[xff]] ++ answer (pyb "42")) idle in
  let st1 := after_noise [[xff]] (answer (pyb "42")) st in
  first_read true st = (Returned [xff], st1)
  /\ decode [xff] = None
  /\ Connection.readlines true true true true st
     = match Connection.readlines true true true true st1 with
       | (Returned _, st2) => (Returned RNone, st2)
       | other => other
       end.
Proof.
  cbv zeta. split; [vm_compute; reflexivity|]. split; [reflexivity|].
  refine (proj1 (readlines_drops_retry_result true true true true
                   (with_feed (noise [[xff]] ++ answer (pyb "42")) idle)
                   [xff]
                   (after_noise [[xff]] (answer (pyb "42"))
                      (with_feed (noise [[xff]] ++ answer (pyb "42")) idle))
                   _ _)).
  - vm_compute; reflexivity.
  - reflexivity.
Defined.

(* ===================================================================== *)
(** ** Facts about the string builtins *)
(* ===================================================================== *)

Section Strings.

Lemma startswith_app p rest : startswith (p ++ rest) p = true.
Proof.
  induction p as [|c p IH]; cbn [startswith app]; auto.
  now rewrite N.eqb_refl.
Qed.

Lemma startswith_split s p :
  startswith s p = true -> exists rest, s = p ++ rest.
Proof.
  revert s. induction p as [|c p IH]; intros s H.
  - exists s. reflexivity.
  - destruct s as [|d s]; cbn [startswith] in H; [discriminate|].
    apply andb_prop in H. destruct H as [Hc Hp].
    apply N.eqb_eq in Hc. subst d.
    destruct (IH s Hp) as [rest ->]. exists rest. reflexivity.
Qed.

Lemma find_lower s sub : (-1 <= find s sub)%Z.
Proof.
  induction s as [|c s IH]; cbn [find].
  - destruct (startswith [] sub); lia.
  - destruct (startswith (c :: s) sub); [lia|].
    destruct (find s sub <? 0)%Z; lia.
Qed.

(** Where [find] answers an index, the text holds the pattern there. *)
Lemma find_occurs s sub :
  (0 <= find s sub)%Z ->
  exists pre post, s = pre ++ sub ++ post
                   /\ find s sub = Z.of_nat (length pre).
Proof.
  induction s as [|c s IH]; cbn [find].
  - destruct (startswith [] sub) eqn:E; [|lia].
    intros _. apply startswith_split in E. destruct E as [rest E].
    exists [], rest. auto.
  - destruct (startswith (c :: s) sub) eqn:E.
    + intros _. apply startswith_split in E. destruct E as [rest E].
      exists [], rest. auto.
    + destruct (find s sub <? 0)%Z eqn:L; [lia|].
      intros _. apply Z.ltb_ge in L.
      destruct (IH L) as (pre & post & -> & F).
      exists (c :: pre), post. split; [reflexivity|].
      rewrite F. cbn [length]. lia.
Qed.

Lemma contains_cons_false c d s :
  contains c (d :: s) = false -> (d =? c)%N = false /\ contains c s = false.
Proof.
  unfold contains. cbn [existsb]. intros H.
  apply orb_false_elim in H. destruct H as [H1 H2].
  split; auto. now rewrite N.eqb_sym.
Qed.

Lemma contains_app_false c a b :
  contains c a = false -> contains c b = false -> contains c (a ++ b) = false.
Proof.
  unfold contains. intros Ha Hb. rewrite existsb_app, Ha, Hb. reflexivity.
Qed.

Lemma find_complete pre sub post : (0 <= find (pre ++ sub ++ post) sub)%Z.
Proof.
  induction pre as [|c pre IH].
  - cbn [app]. pose proof (startswith_app sub post) as S.
    destruct (sub ++ post) as [|x s] eqn:E; cbn [find]; rewrite S; lia.
  - cbn [app find].
    destruct (startswith (c :: pre ++ sub ++ post) sub); [lia|].
    destruct (find (pre ++ sub ++ post) sub <? 0)%Z eqn:L;
      [apply Z.ltb_lt in L|]; lia.
Qed.

(** [find] of a single character that first shows after [a]. *)
Lemma find_char c a rest :
  contains c a = false ->
  find (a ++ c :: rest) [c] = Z.of_nat (length a).
Proof.
  induction a as [|d a IH]; intros H.
  - cbn. now rewrite N.eqb_refl.
  - apply contains_cons_false in H. destruct H as [Hd Ha].
    cbn [app find startswith]. rewrite Hd. cbn [andb].
    rewrite (IH Ha).
    destruct (Z.of_nat (length a) <? 0)%Z eqn:L;
      [apply Z.ltb_lt in L; lia|].
    cbn [length]. lia.
Qed.

Lemma find_char_absent c a : contains c a = false -> find a [c] = (-1)%Z.
Proof.
  induction a as [|d a IH]; intros H; [reflexivity|].
  apply contains_cons_false in H. destruct H as [Hd Ha].
  cbn [find startswith]. rewrite Hd. cbn [andb]. rewrite (IH Ha).
  reflexivity.
Qed.

(** The first piece of a split at a character is what stands before its
    first occurrence. *)
Lemma split_from_char c a :
  forall cur rest,
    contains c a = false ->
    split_from [c] 0 cur (a ++ c :: rest)
    = (rev cur ++ a) :: split_from [c] 0 [] rest.
Proof.
  induction a as [|d a IH]; intros cur rest H.
  - cbn. rewrite N.eqb_refl. cbn. now rewrite app_nil_r.
  - apply contains_cons_false in H. destruct H as [Hd Ha].
    cbn [app split_from startswith]. rewrite Hd. cbn [andb].
    rewrite (IH _ _ Ha). cbn [rev]. now rewrite <- app_assoc.
Qed.

Lemma slice_drop_last s c : slice (s ++ [c]) None (Some (-1)%Z) = s.
Proof.
  unfold slice, clamp. rewrite length_app. cbn [length Z.ltb Z.compare].
  cbn [skipn Z.to_nat].
  replace (Z.to_nat (Z.max 0 (-1 + Z.of_nat (length s + 1)) - 0))
    with (length s) by lia.
  rewrite firstn_app, Nat.sub_diag, firstn_all. cbn. now rewrite app_nil_r.
Qed.

Lemma slice_suffix a b :
  slice (a ++ b) (Some (Z.of_nat (length a))) None = b.
Proof.
  unfold slice, clamp. rewrite length_app.
  destruct (Z.of_nat (length a) <? 0)%Z eqn:L; [apply Z.ltb_lt in L; lia|].
  replace (Z.to_nat (Z.min (Z.of_nat (length a))
                           (Z.of_nat (length a + length b))))
    with (length a) by lia.
  rewrite skipn_app, skipn_all, Nat.sub_diag. cbn [app skipn].
  apply firstn_all2. lia.
Qed.

Lemma slice_middle a b c :
  slice (a ++ b ++ c) (Some (Z.of_nat (length a)))
        (Some (Z.of_nat (length a) + Z.of_nat (length b))%Z) = b.
Proof.
  unfold slice, clamp. rewrite !length_app.
  destruct (Z.of_nat (length a) <? 0)%Z eqn:L; [apply Z.ltb_lt in L; lia|].
  destruct (Z.of_nat (length a) + Z.of_nat (length b) <? 0)%Z eqn:L2;
    [apply Z.ltb_lt in L2; lia|].
  replace (Z.to_nat (Z.min (Z.of_nat (length a))
                           (Z.of_nat (length a + (length b + length c)))))
    with (length a) by lia.
  replace (Z.to_nat
             (Z.min (Z.of_nat (length a) + Z.of_nat (length b))
                    (Z.of_nat (length a + (length b + length c)))
              - Z.min (Z.of_nat (length a))
                      (Z.of_nat (length a + (length b + length c)))))
    with (length b) by lia.
  rewrite skipn_app, skipn_all, Nat.sub_diag. cbn [app skipn].
  rewrite firstn_app, Nat.sub_diag, firstn_all. cbn. now rewrite app_nil_r.
Qed.

(** A text in quotes: the slice [[1:-1]] is what stands between them. *)
Lemma slice_unquote q1 q2 p :
  slice ([q1] ++ p ++ [q2]) (Some 1%Z) (Some (-1)%Z) = p.
Proof.
  unfold slice, clamp. rewrite !length_app. cbn [length].
  change (1 <? 0)%Z with false. change (-1 <? 0)%Z with true. cbv iota.
  set (len := Z.of_nat (1 + (length p + 1))).
  replace (Z.to_nat (Z.min 1 len)) with 1 by lia.
  replace (Z.to_nat (Z.max 0 (-1 + len) - Z.min 1 len)) with (length p) by lia.
  cbn [app skipn].
  rewrite firstn_app, Nat.sub_diag, firstn_all. cbn. now rewrite app_nil_r.
Qed.

Lemma endswith_app s p : endswith (s ++ p) p = true.
Proof. unfold endswith. rewrite rev_app_distr. apply startswith_app. Qed.

End Strings.

(* ===================================================================== *)
(** ** The remote fault check *)
(* ===================================================================== *)

Section FaultCheck.

Import Connection.

Lemma first_traceback_none lines xs :
  (forall x, In x xs -> startswith (nth x lines []) traceback_marker = false) ->
  first_traceback lines xs = None.
Proof.
  induction xs as [|x xs IH]; intros H; cbn [first_traceback]; auto.
  rewrite (H x (or_introl eq_refl)). apply IH.
  intros y Hy. apply H. now right.
Qed.

Lemma first_traceback_some lines xs x :
  In x xs -> startswith (nth x lines []) traceback_marker = true ->
  exists y, first_traceback lines xs = Some y.
Proof.
  induction xs as [|z xs IH]; intros Hin Hx; [contradiction|].
  cbn [first_traceback].
  destruct (startswith (nth z lines []) traceback_marker) eqn:E;
    [eexists; reflexivity|].
  destruct Hin as [->|Hin]; [congruence|]. now apply IH.
Qed.

Lemma fault_name_parsed lines name msg :
  last lines [] = name ++ py ": " ++ msg ->
  contains SPACE name = false ->
  fault_name lines = name.
Proof.
  intros L H. unfold fault_name. rewrite L.
  change (name ++ py ": " ++ msg) with (name ++ [58%N] ++ SPACE :: msg).
  rewrite app_assoc. unfold split.
  change (py " ") with [SPACE].
  rewrite split_from_char
    by (apply contains_app_false; [assumption | reflexivity]).
  cbn [hd rev app]. apply slice_drop_last.
Qed.

Lemma fault_msg_parsed lines name msg :
  last lines [] = name ++ py ": " ++ msg ->
  contains SPACE name = false ->
  fault_msg lines = msg.
Proof.
  intros L H. unfold fault_msg.
  rewrite (fault_name_parsed lines name msg L H), L.
  rewrite (app_assoc name (py ": ") msg).
  replace (Z.of_nat (length name) + 2)%Z
    with (Z.of_nat (length (name ++ py ": ")))
    by (rewrite length_app; cbn [length py map list_ascii_of_string]; lia).
  apply slice_suffix.
Qed.

End FaultCheck.

(** [C3], as claimed: the text [Traceback] has a line that begins with
    the marker, and the check raises nothing. *)
Lemma fault_check_misses_last_line :
  (exists line, In line (split (py "Traceback") [LF])
                /\ startswith line Connection.traceback_marker = true)
  /\ Connection.handle_potential_invalid_data (py "Traceback") idle
     = (Returned tt, idle).
Proof.
  split; [|reflexivity].
  exists (py "Traceback"). split; [left|]; reflexivity.
Qed.

(** [C3], amended. With [lines] the lines of the text once carriage
    returns are removed and the ends are stripped, the check raises if and
    only if a line other than the last begins with [Traceback]. On a last
    line of the form [Name: message], [Name] holding no space, the fault
    raised carries [Name] and [message]. *)
Theorem fault_check_looks_before_last_line :
  forall data st,
    let lines := Connection.fault_lines data in
    ((exists x, x < length lines - 1
                /\ startswith (nth x lines []) Connection.traceback_marker
                   = true) ->
     Connection.handle_potential_invalid_data data st
     = (Raised (Exception (Connection.fault_text
                             (Connection.fault_name lines)
                             (Connection.fault_msg lines))), st))
    /\ ((forall x, x < length lines - 1 ->
                   startswith (nth x lines []) Connection.traceback_marker
                   = false) ->
        Connection.handle_potential_invalid_data data st = (Returned tt, st))
    /\ (forall name msg,
          last lines [] = name ++ py ": " ++ msg ->
          contains SPACE name = false ->
          Connection.fault_name lines = name
          /\ Connection.fault_msg lines = msg).
Proof.
  intros data st lines. split; [|split].
  - intros (x & Hx & Hs).
    unfold Connection.handle_potential_invalid_data. fold lines.
    destruct (length lines <=? 0) eqn:E; [apply Nat.leb_le in E; lia|].
    destruct (first_traceback_some lines (seq 0 (length lines - 1)) x)
      as [y ->]; auto.
    apply in_seq. lia.
  - intros H.
    unfold Connection.handle_potential_invalid_data. fold lines.
    destruct (length lines <=? 0); [reflexivity|].
    rewrite first_traceback_none; [reflexivity|].
    intros x Hx. apply in_seq in Hx. apply H. lia.
  - intros name msg L H. split.
    + now apply fault_name_parsed with msg.
    + now apply fault_msg_parsed with name.
Qed.

(** [C3]: the traceback of the example, and a reply without one. *)
Lemma fault_check_looks_before_last_line_witness :
  Connection.handle_potential_invalid_data fault_example idle
  = (Raised (Exception (Connection.fault_text (py "ValueError")
                                              (py "bad input"))), idle)
  /\ Connection.handle_potential_invalid_data (py "42") idle
     = (Returned tt, idle).
Proof.
  split.
  - destruct (fault_check_looks_before_last_line fault_example idle)
      as (H1 & _ & H3).
    destruct (H3 (py "ValueError") (py "bad input") eq_refl eq_refl)
      as [Hn Hm].
    rewrite <- Hn at 1. rewrite <- Hm. apply H1.
    exists 0. split; [vm_compute; lia | reflexivity].
  - destruct (fault_check_looks_before_last_line (py "42") idle)
      as (_ & H2 & _).
    apply H2. intros x Hx. vm_compute in Hx. lia.
Defined.

(* ===================================================================== *)
(** ** Quoted text: what the scan stores and what [repr] gives back *)
(* ===================================================================== *)

Section Quoted.

Lemma plain_printable quote c :
  (latin1 c && cp_isprintable c && negb (c =? quote)%N
   && negb (c =? BACKSLASH)%N) = true ->
  repr_char quote c = [c].
Proof.
  intros H. apply andb_prop in H. destruct H as [H Hb].
  apply andb_prop in H. destruct H as [Hp Hq].
  apply andb_prop in Hp. destruct Hp as [_ Hp].
  apply negb_true_iff in Hb, Hq.
  unfold repr_char. rewrite Hq, Hb. cbn [orb].
  assert (L : (32 <= c)%N).
  { unfold cp_isprintable in Hp. apply negb_true_iff in Hp.
    apply orb_false_elim in Hp. destruct Hp as [Hp _].
    apply orb_false_elim in Hp. destruct Hp as [Hp _].
    now apply N.ltb_ge in Hp. }
  unfold TAB, LF, CR.
  destruct (c =? 9)%N eqn:E1; [apply N.eqb_eq in E1; lia|].
  destruct (c =? 10)%N eqn:E2; [apply N.eqb_eq in E2; lia|].
  destruct (c =? 13)%N eqn:E3; [apply N.eqb_eq in E3; lia|].
  now rewrite Hp.
Qed.

Lemma plain_flat_map quote s :
  plain quote s = true -> flat_map (repr_char quote) s = s.
Proof.
  induction s as [|c s IH]; intros H; [reflexivity|].
  unfold plain in H. cbn [forallb] in H.
  apply andb_prop in H. destruct H as [Hc Hs].
  cbn [flat_map]. rewrite (plain_printable quote c Hc), (IH Hs). reflexivity.
Qed.

Lemma plain_no_quote quote s : plain quote s = true -> contains quote s = false.
Proof.
  induction s as [|c s IH]; intros H; [reflexivity|].
  unfold plain in H. cbn [forallb] in H.
  apply andb_prop in H. destruct H as [Hc Hs].
  apply andb_prop in Hc. destruct Hc as [Hc _].
  apply andb_prop in Hc. destruct Hc as [_ Hq].
  apply negb_true_iff in Hq.
  unfold contains. cbn [existsb]. rewrite N.eqb_sym, Hq. cbn [orb].
  now apply IH.
Qed.

Lemma repr_plain_single p :
  plain SQUOTE p = true -> repr (PyStr p) = [SQUOTE] ++ p ++ [SQUOTE].
Proof.
  intros H. cbn [repr]. unfold repr_str.
  rewrite (plain_no_quote SQUOTE p H). cbn [andb].
  now rewrite plain_flat_map.
Qed.

Lemma repr_plain_double p :
  plain DQUOTE p = true -> contains SQUOTE p = true ->
  repr (PyStr p) = [DQUOTE] ++ p ++ [DQUOTE].
Proof.
  intros H Hs. cbn [repr]. unfold repr_str.
  rewrite (plain_no_quote DQUOTE p H), Hs. cbn [andb negb].
  now rewrite plain_flat_map.
Qed.

Lemma quoted_wrapped q p :
  q = SQUOTE \/ q = DQUOTE ->
  Wrapper.quoted ([q] ++ p ++ [q]) = true
  /\ startswith ([q] ++ p ++ [q]) (py "<") = false.
Proof.
  intros H. unfold Wrapper.quoted.
  pose proof (endswith_app ([q] ++ p) [q]) as E.
  rewrite <- app_assoc in E.
  pose proof (startswith_app [q] (p ++ [q])) as S.
  destruct H as [-> | ->]; rewrite E, S; split;
    try reflexivity; cbn [andb orb]; auto using orb_true_r.
Qed.

(** The round of the scan for a member whose fetched text is in quotes. *)
Lemma scan_member_quoted scan my_path me member r st st' q p :
  q = SQUOTE \/ q = DQUOTE ->
  strip member <> [] ->
  Connection.execute_default
    (py "repr(" ++ my_path ++ py "." ++ strip member ++ py ")") st
  = (Returned (RStr r), st') ->
  slice r (Some 1%Z) (Some (-1)%Z) = [q] ++ p ++ [q] ->
  Wrapper.scan_member scan my_path me member st
  = (Returned (ShimClass._set_attr me (strip member) (VStr p)), st').
Proof.
  intros Hq Hm He Hs. unfold Wrapper.scan_member.
  destruct (strip member) as [|c m] eqn:Em; [congruence|].
  cbn [length Nat.leb]. unfold bind at 1. rewrite He.
  unfold bind, Wrapper.subscript, ret. rewrite Hs.
  destruct (quoted_wrapped q p Hq) as [Q L].
  rewrite L, Q. cbn [andb]. rewrite slice_unquote. reflexivity.
Qed.

Lemma determine_single_quoted (F : Type) (to_float : str -> option F) p :
  _determine_variable_type to_float ([SQUOTE] ++ p ++ [SQUOTE])
  = inr (DStr p).
Proof.
  unfold _determine_variable_type.
  pose proof (endswith_app ([SQUOTE] ++ p) [SQUOTE]) as E.
  rewrite <- app_assoc in E. rewrite E.
  rewrite (startswith_app [SQUOTE] (p ++ [SQUOTE])). cbn [andb].
  now rewrite slice_unquote.
Qed.

(** [_determine_variable_type] knows single quotes only: text in double
    quotes never comes back as a string. *)
Lemma determine_double_quoted (F : Type) (to_float : str -> option F) p :
  _determine_variable_type to_float ([DQUOTE] ++ p ++ [DQUOTE])
  <> inr (DStr p).
Proof.
  unfold _determine_variable_type. cbn [app startswith N.eqb Pos.eqb andb].
  unfold isdigit, all_chars. cbn [forallb].
  change (cp_isdigit DQUOTE) with false. cbn [andb].
  destruct (to_float _); discriminate.
Qed.

End Quoted.

(** [C4], as claimed: [abc] in double quotes is stored by the scan as the
    string [abc], and encoding that string does not give the double-quoted
    form back. *)
Lemma double_quoted_round_trip_fails :
  let info := [DQUOTE] ++ py "abc" ++ [DQUOTE] in
  Wrapper.quoted info = true
  /\ slice info (Some 1%Z) (Some (-1)%Z) = py "abc"
  /\ repr (PyStr (slice info (Some 1%Z) (Some (-1)%Z))) <> info.
Proof.
  cbv zeta. split; [reflexivity|]. split; [reflexivity|].
  vm_compute. discriminate.
Qed.

(** [C4], amended. For text [p] between two single or two double quotes
    the scan stores the string [p], the quotes removed (it is never read as
    a number), and [_determine_variable_type] returns [p] for single
    quotes. Encoding [p] with [repr] gives the single-quoted form again
    when [p] is made of printable characters below U+0100 other than the
    single quote and the backslash, and the double-quoted form when [p],
    made of such characters, holds a single quote and neither a double
    quote nor a backslash. *)
Theorem quoted_text_decodes_to_payload :
  forall p : str,
    (forall q scan my_path me member r st st',
        q = SQUOTE \/ q = DQUOTE ->
        strip member <> [] ->
        Connection.execute_default
          (py "repr(" ++ my_path ++ py "." ++ strip member ++ py ")") st
        = (Returned (RStr r), st') ->
        slice r (Some 1%Z) (Some (-1)%Z) = [q] ++ p ++ [q] ->
        Wrapper.scan_member scan my_path me member st
        = (Returned (ShimClass._set_attr me (strip member) (VStr p)), st'))
    /\ (forall (F : Type) (to_float : str -> option F),
          _determine_variable_type to_float ([SQUOTE] ++ p ++ [SQUOTE])
          = inr (DStr p))
    /\ (plain SQUOTE p = true ->
        repr (PyStr p) = [SQUOTE] ++ p ++ [SQUOTE])
    /\ (plain DQUOTE p = true -> contains SQUOTE p = true ->
        repr (PyStr p) = [DQUOTE] ++ p ++ [DQUOTE]).
Proof.
  intros p. split; [|split; [|split]].
  - intros q scan my_path me member r st st'. apply scan_member_quoted.
  - intros F to_float. apply determine_single_quoted.
  - apply repr_plain_single.
  - apply repr_plain_double.
Qed.

(** [C4]: the member [NAME] of [microbit], whose value is the text
    [hello]; and the encoding of [hello] and of [it's]. *)
Lemma quoted_text_decodes_to_payload_witness :
  Wrapper.scan_member (fun _ _ => ret (VShimClass []))
                      (py "microbit") [] (py "NAME") name_reply_state
  = (Returned [(py "NAME", VStr (py "hello"))],
     snd (Connection.execute_default name_command name_reply_state))
  /\ repr (PyStr (py "hello")) = [SQUOTE] ++ py "hello" ++ [SQUOTE]
  /\ repr (PyStr (py "it's")) = [DQUOTE] ++ py "it's" ++ [DQUOTE].
Proof.
  destruct (quoted_text_decodes_to_payload (py "hello")) as (H1 & _ & H3 & _).
  destruct (quoted_text_decodes_to_payload (py "it's")) as (_ & _ & _ & H4).
  split; [|split].
  - apply (H1 SQUOTE (fun _ _ => ret (VShimClass [])) (py "microbit") []
              (py "NAME")
              ([DQUOTE] ++ [SQUOTE] ++ py "hello" ++ [SQUOTE] ++ [DQUOTE])).
    + left; reflexivity.
    + vm_compute; discriminate.
    + vm_compute; reflexivity.
    + vm_compute; reflexivity.
  - apply H3. vm_compute; reflexivity.
  - apply H4; vm_compute; reflexivity.
Defined.

(* ===================================================================== *)
(** ** The commit hash in the boot text *)
(* ===================================================================== *)

Section CommitHash.

Import Wrapper.

Lemma while_numeric_app d c rest :
  forall i,
    forallb cp_isnumeric d = true -> cp_isnumeric c = false ->
    while_numeric (d ++ c :: rest) i = Some (i + Z.of_nat (length d))%Z.
Proof.
  induction d as [|x d IH]; intros i Hd Hc.
  - cbn [app while_numeric length]. rewrite Hc. f_equal. lia.
  - cbn [forallb] in Hd. apply andb_prop in Hd. destruct Hd as [Hx Hd].
    cbn [app while_numeric]. rewrite Hx, (IH _ Hd Hc).
    f_equal. cbn [length]. lia.
Qed.

Lemma skip_field_at pre d c rest st :
  forallb cp_isnumeric d = true -> cp_isnumeric c = false ->
  skip_field (pre ++ d ++ c :: rest) (Z.of_nat (length pre)) st
  = (Returned (Z.of_nat (length (pre ++ d ++ [c]))), st).
Proof.
  intros Hd Hc. unfold skip_field.
  rewrite Nat2Z.id, skipn_app, skipn_all, Nat.sub_diag.
  cbn [app skipn]. rewrite (while_numeric_app d c rest _ Hd Hc).
  unfold ret. f_equal. f_equal. rewrite !length_app. cbn [length]. lia.
Qed.

(** After the banner and three fields, [commit_hash] is left with the
    search for a space in [rest]. *)
Lemma commit_hash_fields lines pre d1 c1 d2 c2 d3 c3 rest st :
  find lines banner = Z.of_nat (length pre) ->
  forallb cp_isnumeric d1 = true -> cp_isnumeric c1 = false ->
  forallb cp_isnumeric d2 = true -> cp_isnumeric c2 = false ->
  forallb cp_isnumeric d3 = true -> cp_isnumeric c3 = false ->
  lines = pre ++ banner ++ d1 ++ [c1] ++ d2 ++ [c2] ++ d3 ++ [c3] ++ rest ->
  commit_hash lines st
  = let head := pre ++ banner ++ d1 ++ [c1] ++ d2 ++ [c2] ++ d3 ++ [c3] in
    let index := Z.of_nat (length head) in
    let sindex := find rest (py " ") in
    if (sindex <? 0)%Z then (Raised version_error, st)
    else (Returned (slice lines (Some index) (Some (index + sindex)%Z)), st).
Proof.
  intros Hf H1 C1 H2 C2 H3 C3 L. unfold commit_hash. fold banner.
  rewrite Hf.
  destruct (Z.of_nat (length pre) <? 0)%Z eqn:E; [apply Z.ltb_lt in E; lia|].
  replace (Z.of_nat (length pre) + 13)%Z
    with (Z.of_nat (length (pre ++ banner)))
    by (rewrite length_app; cbn; lia).
  set (p1 := pre ++ banner).
  set (p2 := p1 ++ d1 ++ [c1]).
  set (p3 := p2 ++ d2 ++ [c2]).
  set (p4 := p3 ++ d3 ++ [c3]).
  assert (L1 : lines = p1 ++ d1 ++ c1 :: (d2 ++ [c2] ++ d3 ++ [c3] ++ rest))
    by (subst p1; rewrite L, <- !app_assoc; reflexivity).
  assert (L2 : lines = p2 ++ d2 ++ c2 :: (d3 ++ [c3] ++ rest))
    by (subst p2 p1; rewrite L, <- !app_assoc; reflexivity).
  assert (L3 : lines = p3 ++ d3 ++ c3 :: rest)
    by (subst p3 p2 p1; rewrite L, <- !app_assoc; reflexivity).
  assert (L4 : lines = p4 ++ rest)
    by (subst p4 p3 p2 p1; rewrite L, <- !app_assoc; reflexivity).
  assert (P4 : pre ++ banner ++ d1 ++ [c1] ++ d2 ++ [c2] ++ d3 ++ [c3] = p4)
    by (subst p4 p3 p2 p1; rewrite <- !app_assoc; reflexivity).
  assert (S1 : skip_field lines (Z.of_nat (length p1)) st
               = (Returned (Z.of_nat (length p2)), st))
    by (rewrite L1; apply (skip_field_at p1 d1 c1 _ st H1 C1)).
  assert (S2 : skip_field lines (Z.of_nat (length p2)) st
               = (Returned (Z.of_nat (length p3)), st))
    by (rewrite L2; apply (skip_field_at p2 d2 c2 _ st H2 C2)).
  assert (S3 : skip_field lines (Z.of_nat (length p3)) st
               = (Returned (Z.of_nat (length p4)), st))
    by (rewrite L3; apply (skip_field_at p3 d3 c3 _ st H3 C3)).
  assert (S4 : slice lines (Some (Z.of_nat (length p4))) None = rest)
    by (rewrite L4; apply slice_suffix).
  cbv zeta. rewrite P4.
  unfold bind. rewrite S1, S2, S3, S4.
  destruct (find rest (py " ") <? 0)%Z; reflexivity.
Qed.

Lemma non_numeric_false c : non_numeric c = true -> cp_isnumeric c = false.
Proof.
  unfold non_numeric. intros H. apply andb_prop in H.
  now apply negb_true_iff.
Qed.

Lemma commit_hash_no_banner lines st :
  (forall pre post, lines <> pre ++ banner ++ post) ->
  commit_hash lines st = (Raised version_error, st).
Proof.
  intros H. unfold commit_hash. fold banner.
  destruct (find lines banner <? 0)%Z eqn:E; [reflexivity|].
  apply Z.ltb_ge in E.
  destruct (find_occurs lines banner E) as (pre & post & L & _).
  now apply H in L.
Qed.

End CommitHash.

(** [C8], as claimed: neither text holds a well-formed banner. For the first
    the extraction does not fail and hands out [ello]; for the second
    it fails with [IndexError], not with the version error. *)
Lemma commit_hash_malformed_banner :
  banner_well_formed (py "MicroPython vX hello there") = false
  /\ Wrapper.commit_hash (py "MicroPython vX hello there") idle
     = (Returned (py "ello"), idle)
  /\ banner_well_formed (py "MicroPython v1.7") = false
  /\ Wrapper.commit_hash (py "MicroPython v1.7") idle
     = (Raised IndexError, idle).
Proof. repeat split; vm_compute; reflexivity. Qed.

(** [C8], amended. The extraction fails with the version error when the
    boot text does not hold [MicroPython v], and when no space follows
    once three numeric fields, each with the one character after it, have
    been skipped. On a well-formed banner (the first [MicroPython v] of the
    text, three numeric fields each followed by a separator, a token and a
    space) the commit hash is exactly the token. A separator is any
    character that is not numeric; it is taken below U+0100 here. *)
Theorem commit_hash_of_banner :
  forall lines st,
    ((forall pre post, lines <> pre ++ banner ++ post) ->
     Wrapper.commit_hash lines st = (Raised Wrapper.version_error, st))
    /\ (forall pre d1 c1 d2 c2 d3 c3 token,
          find lines banner = Z.of_nat (length pre) ->
          forallb cp_isnumeric d1 = true -> non_numeric c1 = true ->
          forallb cp_isnumeric d2 = true -> non_numeric c2 = true ->
          forallb cp_isnumeric d3 = true -> non_numeric c3 = true ->
          contains SPACE token = false ->
          (forall post,
              lines = pre ++ banner ++ d1 ++ [c1] ++ d2 ++ [c2] ++ d3 ++ [c3]
                      ++ token ++ [SPACE] ++ post ->
              Wrapper.commit_hash lines st = (Returned token, st))
          /\ (lines = pre ++ banner ++ d1 ++ [c1] ++ d2 ++ [c2] ++ d3 ++ [c3]
                      ++ token ->
              Wrapper.commit_hash lines st
              = (Raised Wrapper.version_error, st))).
Proof.
  intros lines st. split; [apply commit_hash_no_banner|].
  intros pre d1 c1 d2 c2 d3 c3 token Hf H1 C1 H2 C2 H3 C3 Ht.
  apply non_numeric_false in C1, C2, C3. split.
  - intros post L.
    rewrite (commit_hash_fields lines pre d1 c1 d2 c2 d3 c3
               (token ++ [SPACE] ++ post) st Hf H1 C1 H2 C2 H3 C3 L).
    cbv zeta. change (py " ") with [SPACE].
    change ([SPACE] ++ post) with (SPACE :: post).
    rewrite (find_char SPACE token post Ht).
    destruct (Z.of_nat (length token) <? 0)%Z eqn:E;
      [apply Z.ltb_lt in E; lia|].
    f_equal. f_equal. rewrite L.
    rewrite !(app_assoc _ _ (token ++ [SPACE] ++ post)).
    rewrite <- !app_assoc.
    set (head := pre ++ banner ++ d1 ++ [c1] ++ d2 ++ [c2] ++ d3 ++ [c3]).
    replace (pre ++ banner ++ d1 ++ [c1] ++ d2 ++ [c2] ++ d3 ++ [c3]
             ++ token ++ [SPACE] ++ post)
      with (head ++ token ++ [SPACE] ++ post)
      by (subst head; rewrite <- !app_assoc; reflexivity).
    apply slice_middle.
  - intros L.
    rewrite (commit_hash_fields lines pre d1 c1 d2 c2 d3 c3 token st
               Hf H1 C1 H2 C2 H3 C3 L).
    cbv zeta. change (py " ") with [SPACE].
    rewrite (find_char_absent SPACE token Ht). reflexivity.
Qed.

(** [C8]: a boot text with the banner of build [gbe020eb], one without
    banner, and one that ends with the token. *)
Lemma commit_hash_of_banner_witness :
  Wrapper.commit_hash
    (py "MPY: soft reboot MicroPython v1.7-9-gbe020eb on 2016-04-18")
    idle
  = (Returned (py "gbe020eb"), idle)
  /\ Wrapper.commit_hash (py "MPY: soft reboot") idle
     = (Raised Wrapper.version_error, idle)
  /\ Wrapper.commit_hash (py "MicroPython v1.7-9-gbe020eb") idle
     = (Raised Wrapper.version_error, idle).
Proof.
  split; [|split].
  - apply (proj1
             (proj2 (commit_hash_of_banner
                       (py "MPY: soft reboot MicroPython v1.7-9-gbe020eb on 2016-04-18")
                       idle)
                (py "MPY: soft reboot ") (py "1") 46%N (py "7") 45%N
                (py "9") 45%N (py "gbe020eb")
                eq_refl eq_refl eq_refl eq_refl eq_refl eq_refl eq_refl
                eq_refl)
             (py "on 2016-04-18")).
    reflexivity.
  - apply (proj1 (commit_hash_of_banner _ idle)).
    intros pre post H.
    assert (F : find (py "MPY: soft reboot") banner = (-1)%Z)
      by (vm_compute; reflexivity).
    pose proof (find_complete pre banner post) as C.
    rewrite <- H, F in C. lia.
  - apply (proj2
             (proj2 (commit_hash_of_banner
                       (py "MicroPython v1.7-9-gbe020eb") idle)
                [] (py "1") 46%N (py "7") 45%N
                (py "9") 45%N (py "gbe020eb")
                eq_refl eq_refl eq_refl eq_refl eq_refl eq_refl eq_refl
                eq_refl)).
    reflexivity.
Defined.

(* ===================================================================== *)
(** ** The scan and the cache *)
(* ===================================================================== *)

Section Dictionaries.

Lemma str_eqb_eq a b : str_eqb a b = true <-> a = b.
Proof.
  revert b. induction a as [|x a IH]; intros [|y b]; cbn [str_eqb];
    split; intros H; try reflexivity; try discriminate.
  - apply andb_prop in H. destruct H as [Hx Ha].
    apply N.eqb_eq in Hx. apply IH in Ha. congruence.
  - inversion H; subst. rewrite N.eqb_refl. cbn [andb]. now apply IH.
Qed.

Lemma str_eqb_refl a : str_eqb a a = true.
Proof. now apply str_eqb_eq. Qed.

Lemma str_eqb_neq a b : a <> b -> str_eqb a b = false.
Proof.
  intros H. destruct (str_eqb a b) eqn:E; [|reflexivity].
  apply str_eqb_eq in E. contradiction.
Qed.

Lemma dict_get_set_same d key v : dict_get (dict_set d key v) key = Some v.
Proof.
  induction d as [|[k v0] d IH]; cbn [dict_set dict_get].
  - now rewrite str_eqb_refl.
  - destruct (str_eqb k key) eqn:E; cbn [dict_get]; rewrite E; auto.
Qed.

Lemma dict_get_set_other d key v key' :
  key <> key' -> dict_get (dict_set d key v) key' = dict_get d key'.
Proof.
  intros H. induction d as [|[k v0] d IH]; cbn [dict_set dict_get].
  - now rewrite (str_eqb_neq _ _ H).
  - destruct (str_eqb k key) eqn:E; cbn [dict_get].
    + apply str_eqb_eq in E. subst k. now rewrite (str_eqb_neq _ _ H).
    + destruct (str_eqb k key'); auto.
Qed.

End Dictionaries.

Section Scan.

Import Wrapper.

(** The round of the scan for a member whose fetched text is the marker
    of a function or of a bound method: the path given to the shim is
    [my_path] and the member name put end to end. *)
Lemma scan_member_function scan my_path me member r st st' :
  strip member <> [] ->
  Connection.execute_default
    (py "repr(" ++ my_path ++ py "." ++ strip member ++ py ")") st
  = (Returned (RStr r), st') ->
  slice r (Some 1%Z) (Some (-1)%Z) = py "<function>"
  \/ slice r (Some 1%Z) (Some (-1)%Z) = py "<bound_method>" ->
  scan_member scan my_path me member st
  = (Returned
       (ShimClass._set_attr
          (ShimClass._set_attr me (py "_shim_function_" ++ strip member)
                               (VShimFunction (my_path ++ strip member)))
          (strip member) (VCall (my_path ++ strip member))), st').
Proof.
  intros Hm He Hs. unfold scan_member.
  destruct (strip member) as [|c m] eqn:Em; [congruence|].
  cbn [length Nat.leb]. unfold bind at 1. rewrite He.
  unfold bind at 1. unfold subscript, ret at 1.
  destruct Hs as [-> | ->];
    match goal with
    | |- context [if ?b then _ else _] =>
        replace b with true by (vm_compute; reflexivity)
    end;
    match goal with
    | |- context [if ?b then _ else _] =>
        replace b with true by (vm_compute; reflexivity)
    end;
    unfold bind, ShimClass.__getattr__, ShimClass._set_attr;
    rewrite dict_get_set_same; reflexivity.
Qed.

Lemma for_modules_keeps_ver modules :
  forall cache st cache' st',
    ~ In (py "ver") modules ->
    for_modules cache modules st = (Returned cache', st') ->
    dict_get cache' (py "ver") = dict_get cache (py "ver").
Proof.
  induction modules as [|m modules IH]; intros cache st cache' st' Hn H.
  - cbn in H. inversion H. reflexivity.
  - cbn [for_modules] in H. unfold bind at 1 in H.
    destruct (try_except _ _ st) as [[[|]| e |] st1]; try discriminate.
    + unfold bind in H. cbn [Connection.flush_input] in H.
      destruct (_scan_member_of m None _) as [[scanned| e |] st2];
        try discriminate.
      apply IH in H; [|intros Hi; apply Hn; now right].
      rewrite H. apply dict_get_set_other.
      intros E. apply Hn. left. congruence.
    + apply IH in H; auto. intros Hi; apply Hn; now right.
Qed.

(** What [_scan_modules] leaves when it returns: the record is in
    [_members] and on disk, and its ["ver"] is the hash it was given. *)
Lemma scan_modules_result h st st' :
  _scan_modules h st = (Returned tt, st') ->
  disk st' = Stored (_members st')
  /\ dict_get (_members st') (py "ver") = Some (VStr h).
Proof.
  unfold _scan_modules. unfold bind at 1.
  destruct (Connection.execute_default [4%N] st) as [[r| e |] st1];
    try discriminate.
  unfold bind at 1. cbn [Connection.flush_input].
  unfold bind at 1.
  destruct (for_modules _ _module_list _) as [[cache| e |] st2] eqn:F;
    try discriminate.
  apply for_modules_keeps_ver in F;
    [|unfold _module_list; intros [E|[]]; vm_compute in E; discriminate].
  unfold bind, dump, set_members.
  destruct (disk_writable st2); [|destruct (disk_opens st2); discriminate].
  intros [= <-]. cbn [disk _members]. split; [reflexivity|].
  rewrite F. cbn [dict_get]. now rewrite str_eqb_refl.
Qed.

End Scan.

(** [C2], as the code stands. The module [microbit] of the peer has one
    member, [sleep], whose fetched repr is [<function>]. The scan binds
    the callable to [microbitsleep], the dot left out, and calling it
    writes [microbitsleep()] to the port, not an expression rooted at
    [microbit.sleep]. *)
Theorem scan_binds_function_without_dot :
  let st := with_feed sleep_feed idle in
  exists st',
    Wrapper._scan_member_of (py "microbit") None st
    = (Returned
         (VShimClass
            [(py "_shim_function_sleep", VShimFunction (py "microbitsleep"));
             (py "sleep", VCall (py "microbitsleep"))]), st')
    /\ py "microbitsleep" <> py "microbit.sleep"
    /\ exists evs,
         trace (snd (ShimFunction.call (py "microbitsleep") [] [] st'))
         = trace st' ++ Wrote (py "microbitsleep()" ++ [CR]) :: evs.
Proof.
  cbv zeta. eexists. split; [vm_compute; reflexivity|].
  split; [vm_compute; discriminate|].
  eexists. vm_compute. reflexivity.
Qed.

(** [C9]. When a fresh scan returns, the root mapping [_members] holds the
    key ["ver"] bound to the commit hash itself (text, not a proxy), and
    looking the attribute [ver] up on the wrapper returns that text. *)
Theorem scan_exposes_ver :
  forall h st st',
    Wrapper._scan_modules h st = (Returned tt, st') ->
    dict_get (_members st') (py "ver") = Some (VStr h)
    /\ Wrapper.__getattr__ (py "ver") st' = (Returned (VStr h), st').
Proof.
  intros h st st' H.
  apply scan_modules_result in H. destruct H as [_ H].
  split; [exact H|]. unfold Wrapper.__getattr__. now rewrite H.
Qed.

(** [C9]: the scan of a peer whose [microbit] holds the function [sleep]. *)
Lemma scan_exposes_ver_witness :
  let st' := snd (Wrapper._scan_modules (py "abc123")
                    (with_feed (answer [] ++ answer [] ++ sleep_feed) idle)) in
  dict_get (_members st') (py "ver") = Some (VStr (py "abc123"))
  /\ Wrapper.__getattr__ (py "ver") st' = (Returned (VStr (py "abc123")), st').
Proof.
  cbv zeta.
  apply (scan_exposes_ver (py "abc123")
           (with_feed (answer [] ++ answer [] ++ sleep_feed) idle)).
  vm_compute. reflexivity.
Defined.

Section Cache.

Import Wrapper.


Lemma usable_cache_shim_class cache h :
  holds_shim_class cache = true -> usable_cache (Stored cache) h = None.
Proof.
  intros S. unfold usable_cache, pickle_load. now rewrite S.
Qed.

Lemma load_eq st h st1 :
  read_commit_hash st = (Returned h, st1) ->
  _load_ubit_module_cache st
  = match usable_cache (disk st1) h with
    | Some cache => (Returned tt, with_members cache st1)
    | None => _scan_modules h st1
    end.
Proof.
  intros H. unfold _load_ubit_module_cache. unfold bind at 1. rewrite H.
  unfold bind at 1. destruct (usable_cache (disk st1) h); reflexivity.
Qed.

End Cache.

(** [C7], as the code stands. A first session finds no cache file: the
    scan of the build [abc123] runs and writes its record, with ["ver"]
    and the scanned module [microbit]. A second session of the same build
    finds that file. Its identity equals the live one, yet the record is
    not served: [pickle.load] raises on the [_shim_class] in it, the bare
    [except] takes the exception, and [load] is the scan once more, whose
    commands go over the port again. *)
Theorem load_rescans_record_of_same_identity :
  let first := with_feed (boot_feed "abc123" ++ answer [] ++ answer []
                          ++ sleep_feed) idle in
  exists st1 st2 st3,
    Wrapper._load_ubit_module_cache first = (Returned tt, st1)
    /\ disk st1 = Stored abc123_record
    /\ dict_get abc123_record (py "ver") = Some (VStr (py "abc123"))
    /\ Wrapper.read_commit_hash (with_disk (disk st1) first)
       = (Returned (py "abc123"), st2)
    /\ Wrapper.pickle_load (disk st2) = None
    /\ Wrapper._load_ubit_module_cache (with_disk (disk st1) first)
       = Wrapper._scan_modules (py "abc123") st2
    /\ Wrapper._load_ubit_module_cache (with_disk (disk st1) first)
       = (Returned tt, st3)
    /\ In (Wrote (py "import microbit" ++ [CR])) (trace st3)
    /\ In (Wrote (py "dir(microbit)" ++ [CR])) (trace st3)
    /\ ~ In (Wrote (py "import microbit" ++ [CR])) (trace st2).
Proof.
  cbv zeta. do 3 eexists.
  split; [vm_compute; reflexivity|].
  split; [vm_compute; reflexivity|].
  split; [vm_compute; reflexivity|].
  split; [vm_compute; reflexivity|].
  split; [vm_compute; reflexivity|].
  split; [vm_compute; reflexivity|].
  split; [vm_compute; reflexivity|].
  split; [vm_compute; repeat first [left; reflexivity | right]|].
  split; [vm_compute; repeat first [left; reflexivity | right]|].
  vm_compute. intros H.
  repeat match goal with
         | H : _ \/ _ |- _ => destruct H as [H|H]
         end; try discriminate; exact H.
Qed.

(* ===================================================================== *)
(** ** The scan ends: the fuel given to it is enough *)
(* ===================================================================== *)

Section Termination.

Import Wrapper.

Lemma quiet_ret {A} (a : A) st : quiet (ret a) st.
Proof. split; [discriminate | apply Nat.le_refl]. Qed.

Lemma quiet_raise {A} e st : quiet (@raise A e) st.
Proof. split; [discriminate | apply Nat.le_refl]. Qed.

Lemma quiet_bind {A B} (m : M A) (k : A -> M B) st :
  quiet m st ->
  (forall a st1, m st = (Returned a, st1) -> quiet (k a) st1) ->
  quiet (bind m k) st.
Proof.
  unfold quiet, bind. intros [F P] K.
  destruct (m st) as [[a| e |] st1]; cbn [fst snd] in *.
  - destruct (K a st1 eq_refl) as [F1 P1]. split; [exact F1 | lia].
  - split; [discriminate | exact P].
  - congruence.
Qed.

Lemma quiet_try {A} (m handler : M A) st :
  quiet m st ->
  (forall st1, pending st1 <= pending st -> quiet handler st1) ->
  quiet (try_except m handler) st.
Proof.
  unfold quiet, try_except. intros [F P] K.
  destruct (m st) as [[a| e |] st1]; cbn [fst snd] in *.
  - split; [discriminate | exact P].
  - destruct (K st1 P) as [F1 P1]. split; [exact F1 | lia].
  - congruence.
Qed.

Lemma quiet_execute command st :
  quiet (Connection.execute_default command) st.
Proof.
  destruct (execute_reads_only command true true true None true st)
    as (F & _ & _ & P).
  split; assumption.
Qed.

Lemma quiet_flush st : quiet Connection.flush_input st.
Proof.
  split; [discriminate|]. unfold Connection.flush_input, pending. simpl. lia.
Qed.

Lemma execute_default_text command st t st1 :
  Connection.execute_default command st = (Returned (RStr t), st1) ->
  pending st1 + length t <= pending st.
Proof.
  intros E.
  destruct (execute_reads_only command true true true None true st)
    as (_ & _ & Sz & _).
  unfold Connection.execute_default in E. rewrite E in Sz.
  exact (Sz (RStr t) eq_refl).
Qed.

Lemma slice_nil lo hi : slice [] lo hi = [].
Proof. unfold slice. now rewrite skipn_nil, firstn_nil. Qed.

Lemma quiet_subscript r lo hi st : quiet (subscript r lo hi) st.
Proof. destruct r; [apply quiet_ret | apply quiet_raise | apply quiet_raise]. Qed.

Lemma subscript_text r lo hi st s st1 :
  subscript r lo hi st = (Returned s, st1) ->
  st1 = st /\ exists t, r = RStr t /\ s = slice t lo hi.
Proof.
  destruct r as [t| |]; cbn; intros [= <- <-]. split; eauto.
Qed.

(** One round of the loop, given that the recursive call ends whenever
    fewer than [bound] bytes are still to come. *)
Lemma quiet_scan_member scan my_path bound :
  (forall m mem st, pending st < bound -> quiet (scan m mem) st) ->
  forall me member st,
    pending st <= bound -> quiet (scan_member scan my_path me member) st.
Proof.
  intros Hscan me member st Hb. unfold scan_member.
  destruct (length (strip member) <=? 0); [apply quiet_ret|].
  apply quiet_bind; [apply quiet_execute|]. intros r st1 E.
  apply quiet_bind; [apply quiet_subscript|]. intros info st2 S.
  apply subscript_text in S. destruct S as (-> & t & -> & ->).
  apply execute_default_text in E.
  destruct (startswith (slice t (Some 1%Z) (Some (-1)%Z)) (py "<")
            && endswith (slice t (Some 1%Z) (Some (-1)%Z)) (py ">")) eqn:B.
  - destruct (str_eqb _ _ || str_eqb _ _).
    + apply quiet_bind.
      * unfold ShimClass.__getattr__.
        destruct (dict_get _ _); [apply quiet_ret | apply quiet_raise].
      * intros f st2 _. apply quiet_bind.
        -- destruct f; first [apply quiet_ret | apply quiet_raise].
        -- intros c st3 _. apply quiet_ret.
    + apply quiet_bind; [|intros; apply quiet_ret].
      apply Hscan.
      destruct t as [|c t]; [rewrite slice_nil in B; discriminate|].
      cbn [length] in E. lia.
  - destruct (quoted _); [apply quiet_ret|].
    destruct (isnumeric _); [|apply quiet_ret].
    destruct (py_int _); [apply quiet_ret | apply quiet_raise].
Qed.

Lemma quiet_for_members body bound :
  (forall me member st, pending st <= bound -> quiet (body me member) st) ->
  forall members me st,
    pending st <= bound -> quiet (for_members body me members) st.
Proof.
  intros Hbody members.
  induction members as [|member rest IH]; intros me st Hb;
    cbn [for_members]; [apply quiet_ret|].
  apply quiet_bind; [now apply Hbody|].
  intros me' st1 E. apply IH.
  destruct (Hbody me member st Hb) as [_ P]. rewrite E in P.
  cbn [snd] in P. lia.
Qed.

Lemma quiet_scan_member_of_fuel fuel :
  forall m mem st,
    pending st < fuel -> quiet (scan_member_of_fuel fuel m mem) st.
Proof.
  induction fuel as [|fuel IH]; intros m mem st Hf; [lia|].
  cbn [scan_member_of_fuel].
  apply quiet_bind; [apply quiet_execute|]. intros r st1 E.
  apply quiet_bind; [apply quiet_subscript|]. intros listing st2 S.
  apply subscript_text in S. destruct S as (-> & t & -> & ->).
  apply execute_default_text in E.
  apply quiet_bind; [|intros; apply quiet_ret].
  apply (quiet_for_members _ fuel); [|lia].
  apply quiet_scan_member. exact IH.
Qed.

(** [_scan_member_of] never runs out of the fuel it takes. *)
Lemma quiet_scan_member_of m mem st : quiet (_scan_member_of m mem) st.
Proof.
  unfold _scan_member_of. apply quiet_scan_member_of_fuel. lia.
Qed.

Lemma quiet_for_modules modules :
  forall cache st, quiet (for_modules cache modules) st.
Proof.
  induction modules as [|m modules IH]; intros cache st;
    cbn [for_modules]; [apply quiet_ret|].
  apply quiet_bind.
  - apply quiet_try; [|intros; apply quiet_ret].
    apply quiet_bind; [apply quiet_execute | intros; apply quiet_ret].
  - intros [|] st1 _; [|apply IH].
    apply quiet_bind; [apply quiet_flush|]. intros _ st2 _.
    apply quiet_bind; [apply quiet_scan_member_of|]. intros v st3 _.
    apply IH.
Qed.

Lemma quiet_scan_modules h st : quiet (_scan_modules h) st.
Proof.
  unfold _scan_modules.
  apply quiet_bind; [apply quiet_execute|]. intros _ st1 _.
  apply quiet_bind; [apply quiet_flush|]. intros _ st2 _.
  apply quiet_bind; [apply quiet_for_modules|]. intros cache st3 _.
  apply quiet_bind.
  - unfold dump, quiet.
    destruct (disk_writable st3); [|destruct (disk_opens st3)]; cbn [fst snd];
      (split; [discriminate | unfold pending, set_members, log_event; simpl; lia]).
  - intros _ st4 _. split; [discriminate | unfold pending, set_members, log_event; simpl; lia].
Qed.

(** [_load_ubit_module_cache] returns or raises: the fuel of the model
    never runs out. *)
Lemma load_never_out_of_fuel st :
  fst (_load_ubit_module_cache st) <> OutOfFuel.
Proof.
  assert (Q : quiet _load_ubit_module_cache st); [|exact (proj1 Q)].
  unfold _load_ubit_module_cache.
  apply quiet_bind.
  - unfold read_commit_hash.
    apply quiet_bind; [apply quiet_flush|]. intros _ st1 _.
    apply quiet_bind.
    { unfold Connection.soft_reset, Connection.write.
      split; [discriminate | unfold pending, set_members, log_event; simpl; lia]. }
    intros _ st2 _.
    apply quiet_bind.
    { destruct (readlines_reads_only true true true true st2)
        as (F & _ & _ & _ & P). split; assumption. }
    intros r st3 _.
    apply quiet_bind;
      [destruct r; first [apply quiet_ret | apply quiet_raise]|].
    intros lines st4 _. unfold commit_hash.
    destruct (find lines (py "MicroPython v") <? 0)%Z; [apply quiet_raise|].
    repeat (apply quiet_bind;
            [unfold skip_field;
             destruct (while_numeric _ _);
             first [apply quiet_ret | apply quiet_raise]
            |intros ? ? _]).
    destruct (find _ _ <? 0)%Z; [apply quiet_raise | apply quiet_ret].
  - intros h st1 _.
    apply quiet_bind; [split; [discriminate | apply Nat.le_refl]|].
    intros f st2 _.
    destruct (usable_cache f h).
    + split; [discriminate | unfold pending, set_members, log_event; simpl; lia].
    + apply quiet_scan_modules.
Qed.

End Termination.

(* ===================================================================== *)
(** ** What the port operations leave alone *)
(* ===================================================================== *)

Section Keeps.

Import Wrapper.

Lemma keeps_ret {A} (a : A) st : keeps (ret a) st.
Proof. repeat split. Qed.

Lemma keeps_raise {A} e st : keeps (@raise A e) st.
Proof. repeat split. Qed.

Lemma keeps_bind {A B} (m : M A) (k : A -> M B) st :
  keeps m st ->
  (forall a st1, m st = (Returned a, st1) -> keeps (k a) st1) ->
  keeps (bind m k) st.
Proof.
  unfold keeps, bind. intros (D & W & O & Me) K.
  destruct (m st) as [[a| e |] st1]; cbn [fst snd] in *; auto.
  destruct (K a st1 eq_refl) as (D1 & W1 & O1 & M1).
  repeat split; congruence.
Qed.

Lemma keeps_try {A} (m handler : M A) st :
  keeps m st -> (forall st1, keeps handler st1) ->
  keeps (try_except m handler) st.
Proof.
  unfold keeps, try_except. intros (D & W & O & Me) K.
  destruct (m st) as [[a| e |] st1]; cbn [fst snd] in *; auto.
  destruct (K st1) as (D1 & W1 & O1 & M1).
  repeat split; congruence.
Qed.

Lemma keeps_port_read expected st :
  disk (snd (port_read expected st)) = disk st
  /\ disk_writable (snd (port_read expected st)) = disk_writable st
  /\ disk_opens (snd (port_read expected st)) = disk_opens st
  /\ _members (snd (port_read expected st)) = _members st.
Proof.
  unfold port_read. destruct (take_until _ _ _). repeat split.
Qed.

Lemma keeps_readline st : keeps Connection.conn_readline st.
Proof.
  unfold keeps, Connection.conn_readline.
  pose proof (keeps_port_read [x0a] st) as H.
  destruct (port_read [x0a] st) as [line st1]. exact H.
Qed.

Lemma keeps_read_until expected st :
  keeps (Connection.conn_read_until expected) st.
Proof.
  unfold keeps, Connection.conn_read_until.
  pose proof (keeps_port_read expected st) as H.
  destruct (port_read expected st) as [line st1]. exact H.
Qed.

Lemma keeps_flush st : keeps Connection.flush_input st.
Proof. repeat split. Qed.

Lemma keeps_write data st : keeps (Connection.write data) st.
Proof. repeat split. Qed.

Lemma keeps_handle data st :
  keeps (Connection.handle_potential_invalid_data data) st.
Proof.
  unfold keeps.
  destruct (handle_cases data st) as [-> | [e ->]]; repeat split.
Qed.

Lemma keeps_readlines_fuel fuel :
  forall s d l fl st, keeps (Connection.readlines_fuel fuel s d l fl) st.
Proof.
  induction fuel as [|fuel IH]; intros s d l fl st; [repeat split|].
  cbn [Connection.readlines_fuel].
  apply keeps_bind; [apply keeps_readline|]. intros echo st1 _.
  apply keeps_bind; [apply keeps_read_until|]. intros data st2 _.
  apply keeps_bind;
    [destruct fl; [apply keeps_flush | apply keeps_ret]|].
  intros _ st3 _.
  destruct (decode data) as [t|].
  - destruct d; [|apply keeps_ret].
    destruct s; [|apply keeps_ret].
    apply keeps_bind; [|intros; apply keeps_ret].
    destruct l; [apply keeps_handle | apply keeps_ret].
  - apply keeps_bind; [apply IH | intros; apply keeps_ret].
Qed.

Lemma keeps_readlines s d l fl st : keeps (Connection.readlines s d l fl) st.
Proof. unfold Connection.readlines. apply keeps_readlines_fuel. Qed.

Lemma keeps_execute command s d l t fl st :
  keeps (Connection.execute command s d l t fl) st.
Proof.
  unfold Connection.execute.
  apply keeps_bind; [repeat split|]. intros backup st1 _.
  apply keeps_bind; [destruct t; repeat split|]. intros _ st2 _.
  apply keeps_bind; [apply keeps_flush|]. intros _ st3 _.
  apply keeps_bind; [apply keeps_write|]. intros _ st4 _.
  apply keeps_bind; [apply keeps_readlines|]. intros data st5 _.
  apply keeps_bind; [repeat split | intros; apply keeps_ret].
Qed.

Lemma keeps_scan_member scan my_path :
  (forall m mem st, keeps (scan m mem) st) ->
  forall me member st, keeps (scan_member scan my_path me member) st.
Proof.
  intros Hscan me member st. unfold scan_member.
  destruct (length (strip member) <=? 0); [apply keeps_ret|].
  apply keeps_bind; [apply keeps_execute|]. intros r st1 _.
  apply keeps_bind;
    [destruct r; first [apply keeps_ret | apply keeps_raise]|].
  intros info st2 _.
  destruct (startswith info (py "<") && endswith info (py ">")).
  - destruct (str_eqb _ _ || str_eqb _ _).
    + apply keeps_bind.
      * unfold ShimClass.__getattr__.
        destruct (dict_get _ _); [apply keeps_ret | apply keeps_raise].
      * intros f st3 _. apply keeps_bind.
        -- destruct f; first [apply keeps_ret | apply keeps_raise].
        -- intros; apply keeps_ret.
    + apply keeps_bind; [apply Hscan | intros; apply keeps_ret].
  - destruct (quoted _); [apply keeps_ret|].
    destruct (isnumeric _); [|apply keeps_ret].
    destruct (py_int _); [apply keeps_ret | apply keeps_raise].
Qed.

Lemma keeps_for_members body :
  (forall me member st, keeps (body me member) st) ->
  forall members me st, keeps (for_members body me members) st.
Proof.
  intros Hbody members.
  induction members as [|member rest IH]; intros me st;
    cbn [for_members]; [apply keeps_ret|].
  apply keeps_bind; [apply Hbody | intros; apply IH].
Qed.

Lemma keeps_scan_member_of_fuel fuel :
  forall m mem st, keeps (scan_member_of_fuel fuel m mem) st.
Proof.
  induction fuel as [|fuel IH]; intros m mem st; [repeat split|].
  cbn [scan_member_of_fuel].
  apply keeps_bind; [apply keeps_execute|]. intros r st1 _.
  apply keeps_bind;
    [destruct r; first [apply keeps_ret | apply keeps_raise]|].
  intros listing st2 _.
  apply keeps_bind; [|intros; apply keeps_ret].
  apply keeps_for_members. apply keeps_scan_member. exact IH.
Qed.

Lemma keeps_scan_member_of m mem st : keeps (_scan_member_of m mem) st.
Proof. unfold _scan_member_of. apply keeps_scan_member_of_fuel. Qed.

Lemma keeps_for_modules modules :
  forall cache st, keeps (for_modules cache modules) st.
Proof.
  induction modules as [|m modules IH]; intros cache st;
    cbn [for_modules]; [apply keeps_ret|].
  apply keeps_bind.
  - apply keeps_try; [|intros; apply keeps_ret].
    apply keeps_bind; [apply keeps_execute | intros; apply keeps_ret].
  - intros [|] st1 _; [|apply IH].
    apply keeps_bind; [apply keeps_flush|]. intros _ st2 _.
    apply keeps_bind; [apply keeps_scan_member_of | intros; apply IH].
Qed.

End Keeps.

(* ===================================================================== *)
(** ** Further properties of [execute] and [readlines] *)
(* ===================================================================== *)

(** [X1]. When [execute] returns, the timeout of the connection is the one
    it had before the call, whatever override was passed and whatever
    the other options are. *)
Theorem execute_returns_with_timeout_restored :
  forall command s d l t fl st r st',
    Connection.execute command s d l t fl st = (Returned r, st') ->
    timeout st' = timeout st.
Proof.
  intros command s d l t fl st r st'. apply execute_return_restores_timeout.
Qed.

(** [X1]: a command run with a timeout of five seconds on a connection
    whose timeout is one second. *)
Lemma execute_returns_with_timeout_restored_witness :
  timeout (snd (Connection.execute (py "6*7") true true true (Some 5%Z) true
                  (with_feed (answer (pyb "42")) idle)))
  = timeout (with_feed (answer (pyb "42")) idle).
Proof.
  apply (execute_returns_with_timeout_restored
           (py "6*7") true true true (Some 5%Z) true
           (with_feed (answer (pyb "42")) idle) (RStr (py "42"))).
  vm_compute. reflexivity.
Defined.

(** [X2]. Called without a timeout, [execute] leaves the timeout of the
    connection as it is on every path, also when it raises. *)
Theorem execute_without_override_keeps_timeout :
  forall command s d l fl st,
    timeout (snd (Connection.execute command s d l None fl st)) = timeout st.
Proof.
  intros command s d l fl st. rewrite execute_eq.
  destruct (readlines_reads_only s d l fl (sent command None st))
    as (_ & T & _).
  destruct (Connection.readlines s d l fl (sent command None st))
    as [[r|e|] st1]; cbn [fst snd] in *; auto.
Qed.

(** [X3]. [readlines] never writes to the port and never changes the
    timeout, the cache file or [_members]: all it adds to the trace are
    reads, at least one [read_until] among them. *)
Theorem readlines_only_reads :
  forall s d l fl st,
    timeout (snd (Connection.readlines s d l fl st)) = timeout st
    /\ (exists evs,
          trace (snd (Connection.readlines s d l fl st)) = trace st ++ evs
          /\ Forall is_read evs /\ 1 <= attempts evs)
    /\ keeps (Connection.readlines s d l fl) st.
Proof.
  intros s d l fl st.
  destruct (readlines_reads_only s d l fl st) as (_ & T & Tr & _).
  split; [exact T|]. split; [exact Tr|]. apply keeps_readlines.
Qed.

(** [X4]. For a command that [str.encode] takes (no surrogate in it),
    [execute] writes to the port exactly once on every path, the command
    followed by a carriage return, and before any read; it never touches
    the cache file or [_members]. *)
Theorem execute_writes_command_once :
  forall command s d l t fl st,
    encodable command = true ->
    (exists evs,
        trace (snd (Connection.execute command s d l t fl st))
        = trace st ++ Wrote (command ++ [CR]) :: evs
        /\ Forall is_read evs)
    /\ keeps (Connection.execute command s d l t fl) st.
Proof.
  intros command s d l t fl st _.
  destruct (execute_reads_only command s d l t fl st) as (_ & Tr & _).
  split; [exact Tr | apply keeps_execute].
Qed.

(** [X4]: the command [6*7], answered with a traceback, so that [execute]
    raises. *)
Lemma execute_writes_command_once_witness :
  let st := with_feed (answer traceback_reply) idle in
  fst (Connection.execute (py "6*7") true true true None true st)
  = Raised (Exception (Connection.fault_text (py "ZeroDivisionError")
                                             (py "division by zero")))
  /\ (exists evs,
        trace (snd (Connection.execute (py "6*7") true true true None true st))
        = trace st ++ Wrote (py "6*7" ++ [CR]) :: evs
        /\ Forall is_read evs)
  /\ keeps (Connection.execute (py "6*7") true true true None true) st.
Proof.
  cbv zeta. split; [vm_compute; reflexivity|].
  apply (execute_writes_command_once (py "6*7") true true true None true
           (with_feed (answer traceback_reply) idle)).
  vm_compute. reflexivity.
Defined.

(* ===================================================================== *)
(** ** Further properties of the scan and the cache *)
(* ===================================================================== *)

Section ScanShape.

Import Wrapper.

Lemma scan_member_of_returns_class m mem st v st' :
  _scan_member_of m mem st = (Returned v, st') ->
  exists d, v = VShimClass d.
Proof.
  unfold _scan_member_of. cbn [scan_member_of_fuel]. unfold bind.
  destruct (Connection.execute_default _ st) as [[r|e|] st1];
    try discriminate.
  destruct (subscript r _ _ st1) as [[listing|e|] st2]; try discriminate.
  destruct (for_members _ _ _ st2) as [[me|e|] st3]; try discriminate.
  unfold ret. intros [= <- _]. eauto.
Qed.

Lemma for_modules_import_raises cache m rest st e st1 :
  Connection.execute_default (py "import " ++ m) st = (Raised e, st1) ->
  for_modules cache (m :: rest) st = for_modules cache rest st1.
Proof.
  intros H. cbn [for_modules]. unfold bind at 1, try_except, bind at 1.
  rewrite H. reflexivity.
Qed.

Lemma commit_hash_state lines st : snd (commit_hash lines st) = st.
Proof.
  unfold commit_hash.
  destruct (find lines (py "MicroPython v") <? 0)%Z; [reflexivity|].
  unfold bind, skip_field.
  repeat (destruct (while_numeric _ _); [cbn [ret]|reflexivity]).
  destruct (find _ _ <? 0)%Z; reflexivity.
Qed.

Lemma keeps_read_commit_hash st : keeps read_commit_hash st.
Proof.
  unfold read_commit_hash.
  apply keeps_bind; [apply keeps_flush|]. intros _ st1 _.
  apply keeps_bind; [repeat split|]. intros _ st2 _.
  apply keeps_bind; [apply keeps_readlines|]. intros r st3 _.
  apply keeps_bind;
    [destruct r; first [apply keeps_ret | apply keeps_raise]|].
  intros lines st4 _. unfold keeps. rewrite commit_hash_state. repeat split.
Qed.

Lemma scan_modules_unless_returned h st :
  (forall st', _scan_modules h st <> (Returned tt, st')) ->
  _members (snd (_scan_modules h st)) = _members st
  /\ (disk (snd (_scan_modules h st)) = disk st
      \/ (disk (snd (_scan_modules h st)) = Garbled
          /\ disk_writable st = false /\ disk_opens st = true
          /\ fst (_scan_modules h st) = Raised PicklingError)).
Proof.
  unfold _scan_modules. intros N.
  pose proof (keeps_execute [4%N] true true true None true st) as K1.
  fold (Connection.execute_default [4%N]) in K1.
  unfold keeps in *. unfold bind in *.
  destruct (Connection.execute_default [4%N] st) as [[r|e|] st1];
    cbn [fst snd] in *; [|split; [|left]; tauto..].
  cbn [Connection.flush_input] in *.
  match goal with
  | |- context [for_modules ?c ?l ?x] =>
      pose proof (keeps_for_modules l c x) as K2; unfold keeps in K2;
      destruct (for_modules c l x) as [[cache|e|] st2]
  end; cbn [fst snd disk disk_writable disk_opens _members] in *;
    destruct K1 as (D1 & W1 & O1 & M1); destruct K2 as (D2 & W2 & O2 & M2);
    try (split; [|left]; congruence).
  unfold dump in *. destruct (disk_writable st2) eqn:W.
  - exfalso. eapply N. cbn [set_members]. reflexivity.
  - destruct (disk_opens st2) eqn:O; cbn [fst snd disk _members].
    + split; [congruence|]. right. repeat split; congruence.
    + split; [|left]; congruence.
Qed.

End ScanShape.

(** [X5]. A load that raises leaves [_members] as it was. The cache
    file is as it was too, with one exception: when [open] went through
    and it is [pickle.dump] that raised, the file was emptied first, and
    the record it held is lost. *)
Theorem failed_load_leaves_members :
  forall st e st',
    Wrapper._load_ubit_module_cache st = (Raised e, st') ->
    _members st' = _members st
    /\ (disk st' = disk st
        \/ (disk st' = Garbled
            /\ disk_writable st = false /\ disk_opens st = true
            /\ e = PicklingError)).
Proof.
  intros st e st' H.
  pose proof (keeps_read_commit_hash st) as K. unfold keeps in K.
  unfold Wrapper._load_ubit_module_cache in H. unfold bind at 1 in H.
  destruct (Wrapper.read_commit_hash st) as [[h|e1|] st1];
    cbn [fst snd] in K; destruct K as (D & W & O & Me).
  - unfold bind at 1 in H.
    destruct (Wrapper.usable_cache (disk st1) h); [discriminate|].
    assert (N : forall st2, Wrapper._scan_modules h st1 <> (Returned tt, st2))
      by (intros st2 E; rewrite E in H; discriminate).
    apply scan_modules_unless_returned in N.
    rewrite H in N. cbn [fst snd] in N.
    destruct N as (Me1 & [D1 | (D1 & W1 & O1 & E1)]).
    + split; [|left]; congruence.
    + split; [congruence|]. right. repeat split; congruence.
  - inversion H; subst. split; [|left]; assumption.
  - discriminate.
Qed.

(** [X5]: a record of [abc123] is on disk and in [_members], and the peer
    boots [def456], so the scan runs. In the first case the home
    directory is not writable and [open] raises; in the second [open]
    goes through and [pickle.dump] raises. *)
Lemma failed_load_leaves_members_witness :
  let closed := mkState (Some 1%Z) [] (boot_feed "def456") []
                        (Stored abc123_record) false false abc123_record in
  let emptied := mkState (Some 1%Z) [] (boot_feed "def456") []
                         (Stored abc123_record) false true abc123_record in
  (_members (snd (Wrapper._load_ubit_module_cache closed)) = abc123_record
   /\ disk (snd (Wrapper._load_ubit_module_cache closed))
      = Stored abc123_record)
  /\ (_members (snd (Wrapper._load_ubit_module_cache emptied)) = abc123_record
      /\ disk (snd (Wrapper._load_ubit_module_cache emptied)) = Garbled).
Proof.
  cbv zeta. split.
  - destruct (failed_load_leaves_members
                (mkState (Some 1%Z) [] (boot_feed "def456") []
                         (Stored abc123_record) false false abc123_record)
                OSError
                (snd (Wrapper._load_ubit_module_cache
                        (mkState (Some 1%Z) [] (boot_feed "def456") []
                                 (Stored abc123_record) false false
                                 abc123_record))))
      as (Me & [D | (_ & _ & O & _)]).
    + vm_compute. reflexivity.
    + split; [exact Me | exact D].
    + discriminate O.
  - destruct (failed_load_leaves_members
                (mkState (Some 1%Z) [] (boot_feed "def456") []
                         (Stored abc123_record) false true abc123_record)
                PicklingError
                (snd (Wrapper._load_ubit_module_cache
                        (mkState (Some 1%Z) [] (boot_feed "def456") []
                                 (Stored abc123_record) false true
                                 abc123_record))))
      as (Me & _).
    + vm_compute. reflexivity.
    + split; [exact Me | vm_compute; reflexivity].
Defined.

(** [X6]. The record a scan leaves has the key ["ver"] first, bound to
    the hash, and after it at most the key ["microbit"], bound to a shim
    class: it is there when the import went through. *)
Theorem fresh_record_shape :
  forall h st st',
    Wrapper._scan_modules h st = (Returned tt, st') ->
    _members st' = [(py "ver", VStr h)]
    \/ exists d, _members st' = [(py "ver", VStr h);
                                 (py "microbit", VShimClass d)].
Proof.
  intros h st st'. unfold Wrapper._scan_modules. unfold bind at 1.
  destruct (Connection.execute_default [4%N] st) as [[r|e|] st1];
    try discriminate.
  unfold bind at 1. cbn [Connection.flush_input].
  unfold bind at 1. unfold Wrapper._module_list.
  cbn [Wrapper.for_modules]. unfold bind at 1.
  destruct (try_except _ _ _) as [[[|]|e|] st2]; try discriminate.
  - unfold bind at 1. cbn [Connection.flush_input]. unfold bind at 1.
    destruct (Wrapper._scan_member_of _ _ _) as [[v|e|] st3] eqn:S;
      try discriminate.
    apply scan_member_of_returns_class in S. destruct S as [d ->].
    unfold ret at 1. unfold bind, Wrapper.dump, Wrapper.set_members.
    destruct (disk_writable st3); [|destruct (disk_opens st3); discriminate].
    intros [= <-]. right. exists d. reflexivity.
  - unfold ret at 1. unfold bind, Wrapper.dump, Wrapper.set_members.
    destruct (disk_writable st2); [|destruct (disk_opens st2); discriminate].
    intros [= <-]. left. reflexivity.
Qed.

Lemma fresh_record_shape_witness :
  let st' := snd (Wrapper._scan_modules (py "abc123")
                    (with_feed (answer [] ++ answer [] ++ sleep_feed) idle)) in
  _members st' = [(py "ver", VStr (py "abc123"))]
  \/ exists d, _members st' = [(py "ver", VStr (py "abc123"));
                               (py "microbit", VShimClass d)].
Proof.
  cbv zeta.
  apply (fresh_record_shape (py "abc123")
           (with_feed (answer [] ++ answer [] ++ sleep_feed) idle)).
  vm_compute. reflexivity.
Defined.

(** [X7]. When the import of [microbit] raises, the scan still goes
    through: the module is not scanned, and the record written to disk and
    put in [_members] holds the key ["ver"] alone. *)
Theorem failed_import_leaves_bare_record :
  forall h st r st1 e st2,
    Connection.execute_default [4%N] st = (Returned r, st1) ->
    Connection.execute_default (py "import microbit")
                               (snd (Connection.flush_input st1))
    = (Raised e, st2) ->
    disk_writable st = true ->
    Wrapper._scan_modules h st
    = (Returned tt,
       with_members [(py "ver", VStr h)]
         (with_disk (Stored [(py "ver", VStr h)]) st2)).
Proof.
  intros h st r st1 e st2 E1 E2 W.
  pose proof (keeps_execute [4%N] true true true None true st) as K1.
  fold (Connection.execute_default [4%N]) in K1. unfold keeps in K1.
  rewrite E1 in K1. cbn [snd] in K1. destruct K1 as (_ & W1 & _).
  pose proof (keeps_execute (py "import microbit") true true true None true
                (snd (Connection.flush_input st1))) as K2.
  fold (Connection.execute_default (py "import microbit")) in K2.
  unfold keeps in K2. rewrite E2 in K2. cbn [snd] in K2.
  destruct K2 as (_ & W2 & _).
  cbn [Connection.flush_input snd disk_writable] in W2.
  unfold Wrapper._scan_modules. unfold bind at 1. rewrite E1.
  unfold bind at 1. unfold bind at 1. unfold Wrapper._module_list.
  change (Connection.flush_input st1)
    with (Returned tt, snd (Connection.flush_input st1)).
  cbv iota.
  rewrite (for_modules_import_raises _ _ _ _ _ _ E2).
  cbn [Wrapper.for_modules]. unfold ret at 1.
  unfold bind, Wrapper.dump, Wrapper.set_members, with_members, with_disk.
  cbn [timeout inbuf feed trace disk disk_writable disk_opens _members].
  destruct (disk_writable st2) eqn:W3; [reflexivity | congruence].
Qed.

(** [X7]: the peer answers the import with a traceback. *)
Lemma failed_import_leaves_bare_record_witness :
  let st := with_feed (answer [] ++ answer traceback_reply) idle in
  _members (snd (Wrapper._scan_modules (py "abc123") st))
  = [(py "ver", VStr (py "abc123"))]
  /\ disk (snd (Wrapper._scan_modules (py "abc123") st))
     = Stored [(py "ver", VStr (py "abc123"))].
Proof.
  cbv zeta.
  rewrite (failed_import_leaves_bare_record
             (py "abc123")
             (with_feed (answer [] ++ answer traceback_reply) idle)
             (RStr [])
             (snd (Connection.execute_default [4%N]
                     (with_feed (answer [] ++ answer traceback_reply) idle)))
             (Exception (Connection.fault_text
                           (py "ZeroDivisionError") (py "division by zero")))
             (snd (Connection.execute_default (py "import microbit")
                     (snd (Connection.flush_input
                             (snd (Connection.execute_default [4%N]
                                     (with_feed (answer []
                                                 ++ answer traceback_reply)
                                                idle)))))))).
  - split; reflexivity.
  - vm_compute. reflexivity.
  - vm_compute. reflexivity.
  - reflexivity.
Defined.

(* ===================================================================== *)
(** ** When the cache is used *)
(* ===================================================================== *)

Lemma scan_modules_members h st st' :
  Wrapper._scan_modules h st = (Returned tt, st') ->
  _members st' = [(py "ver", VStr h)]
  \/ exists d, _members st' = [(py "ver", VStr h);
                               (py "microbit", VShimClass d)].
Proof.
  unfold Wrapper._scan_modules. unfold bind at 1.
  destruct (Connection.execute_default [4%N] st) as [[r|e|] st1];
    try discriminate.
  unfold bind at 1. cbn [Connection.flush_input].
  unfold bind at 1. unfold Wrapper._module_list.
  cbn [Wrapper.for_modules]. unfold bind at 1.
  destruct (try_except _ _ _) as [[[|]|e|] st2]; try discriminate.
  - unfold bind at 1. cbn [Connection.flush_input]. unfold bind at 1.
    destruct (Wrapper._scan_member_of _ _ _) as [[v|e|] st3] eqn:S;
      try discriminate.
    apply scan_member_of_returns_class in S. destruct S as [d ->].
    unfold ret at 1. unfold bind, Wrapper.dump, Wrapper.set_members.
    destruct (disk_writable st3); [|destruct (disk_opens st3); discriminate].
    intros [= <-]. right. exists d. reflexivity.
  - unfold ret at 1. unfold bind, Wrapper.dump, Wrapper.set_members.
    destruct (disk_writable st2); [|destruct (disk_opens st2); discriminate].
    intros [= <-]. left. reflexivity.
Qed.



(** [X21]. The record that a scan writes once the import of [microbit]
    went through holds a shim class. [pickle.load] raises on it, so no
    later session is served that record, whatever build it meets: its
    load is the scan again. *)
Theorem scanned_record_does_not_load :
  forall h st st',
    Wrapper._scan_modules h st = (Returned tt, st') ->
    dict_get (_members st') (py "microbit") <> None ->
    disk st' = Stored (_members st')
    /\ Wrapper.pickle_load (disk st') = None
    /\ (forall later h2 st2,
          disk later = disk st' ->
          Wrapper.read_commit_hash later = (Returned h2, st2) ->
          Wrapper._load_ubit_module_cache later
          = Wrapper._scan_modules h2 st2).
Proof.
  intros h st st' H G.
  destruct (scan_modules_result h st st' H) as [D _].
  assert (S : Wrapper.holds_shim_class (_members st') = true).
  { destruct (scan_modules_members h st st' H) as [E | [d E]]; rewrite E in *.
    - exfalso. apply G. reflexivity.
    - reflexivity. }
  split; [exact D|]. split.
  - rewrite D. unfold Wrapper.pickle_load. now rewrite S.
  - intros later h2 st2 Dl R.
    rewrite (load_eq later h2 st2 R).
    pose proof (keeps_read_commit_hash later) as K. unfold keeps in K.
    rewrite R in K. cbn [snd] in K. destruct K as (K & _).
    rewrite K, Dl, D.
    now rewrite (usable_cache_shim_class (_members st') h2 S).
Qed.

(** [X21]: the scan of a peer whose [microbit] holds the function
    [sleep]. *)
Lemma scanned_record_does_not_load_witness :
  let st' := snd (Wrapper._scan_modules (py "abc123")
                    (with_feed (answer [] ++ answer [] ++ sleep_feed) idle)) in
  disk st' = Stored abc123_record
  /\ Wrapper.pickle_load (disk st') = None.
Proof.
  cbv zeta.
  destruct (scanned_record_does_not_load (py "abc123")
              (with_feed (answer [] ++ answer [] ++ sleep_feed) idle)
              (snd (Wrapper._scan_modules (py "abc123")
                      (with_feed (answer [] ++ answer [] ++ sleep_feed) idle))))
    as (D & P & _).
  - vm_compute. reflexivity.
  - vm_compute. discriminate.
  - split; [rewrite D; vm_compute; reflexivity | exact P].
Defined.

(* ===================================================================== *)
(** ** A well-behaved reply *)
(* ===================================================================== *)

Section Framing.

Import Connection.

Lemma option_map_app_nil (o : option (list N)) : option_map (app []) o = o.
Proof. destruct o; reflexivity. Qed.

Lemma decode_app_bound n b :
  forall a ta, length a <= n -> decode a = Some ta ->
  decode (a ++ b) = option_map (app ta) (decode b).
Proof.
  induction n as [|n IH]; intros a ta L D.
  - destruct a; [|simpl in L; lia]. simpl in D. inversion D; subst.
    cbn [app]. now rewrite option_map_app_nil.
  - destruct a as [|b0 r0];
      [simpl in D; inversion D; subst; cbn [app];
       now rewrite option_map_app_nil|].
    cbn [app decode]. cbn [decode] in D. cbn [length] in L.
    repeat match type of D with
    | (if ?c then _ else _) = _ => destruct c
    | match ?r with [] => _ | _ :: _ => _ end = _ =>
        destruct r; cbn [length] in L; cbn [app]
    | None = Some _ => discriminate D
    | option_map _ (decode ?r) = Some _ =>
        let E := fresh "E" in
        destruct (decode r) eqn:E; cbn [option_map] in D;
        [ inversion D; subst;
          rewrite (IH r _ ltac:(lia) E);
          destruct (decode b); reflexivity
        | discriminate D ]
    end.
Qed.

Lemma decode_app a b ta tb :
  decode a = Some ta -> decode b = Some tb -> decode (a ++ b) = Some (ta ++ tb).
Proof.
  intros Da Db.
  rewrite (decode_app_bound (length a) b a ta (Nat.le_refl _) Da), Db.
  reflexivity.
Qed.

Lemma decode_framed out t :
  decode out = Some t ->
  decode (framed out) = Some (t ++ [CR; LF] ++ py ">>> ").
Proof.
  intros D. unfold framed. apply decode_app; [exact D | reflexivity].
Qed.

Lemma startswith_before_cr u r :
  startswith (u ++ CR :: r) (py ">>> ") = startswith u (py ">>> ").
Proof.
  destruct u as [|a [|b [|c [|d u]]]]; cbn [app py map list_ascii_of_string
    startswith N_of_ascii N_of_digits]; cbn;
    rewrite ?andb_false_r; reflexivity.
Qed.

Lemma occurs_cons pattern c s :
  occurs pattern (c :: s) = false ->
  startswith (c :: s) pattern = false /\ occurs pattern s = false.
Proof. cbn [occurs]. intros H. now apply orb_false_elim in H. Qed.

Lemma replace_from_before_cr t r :
  occurs (py ">>> ") t = false ->
  replace_from (py ">>> ") [] 0 (t ++ CR :: r)
  = t ++ replace_from (py ">>> ") [] 0 (CR :: r).
Proof.
  induction t as [|c t IH]; intros H; [reflexivity|].
  apply occurs_cons in H. destruct H as [Hs Ho].
  cbn [app replace_from].
  change (c :: t ++ CR :: r) with ((c :: t) ++ CR :: r).
  rewrite startswith_before_cr, Hs. cbn [app]. now rewrite (IH Ho).
Qed.

Lemma replace_prompt t :
  occurs (py ">>> ") t = false ->
  replace (t ++ [CR; LF] ++ py ">>> ") (py ">>> ") [] = t ++ [CR; LF].
Proof.
  intros H.
  change (replace (t ++ [CR; LF] ++ py ">>> ") (py ">>> ") [])
    with (replace_from (py ">>> ") [] 0 (t ++ CR :: LF :: py ">>> ")).
  now rewrite (replace_from_before_cr t _ H).
Qed.

Lemma lstrip_app_space t c :
  cp_isspace c = true ->
  lstrip (t ++ [c]) = match lstrip t with [] => [] | l => l ++ [c] end.
Proof.
  intros Hc. induction t as [|x t IH]; cbn [app lstrip].
  - now rewrite Hc.
  - destruct (cp_isspace x); [exact IH | reflexivity].
Qed.

Lemma strip_app_space t c : cp_isspace c = true -> strip (t ++ [c]) = strip t.
Proof.
  intros Hc. unfold strip. rewrite (lstrip_app_space t c Hc).
  destruct (lstrip t) as [|x u]; [reflexivity|].
  rewrite rev_unit. cbn [lstrip]. now rewrite Hc.
Qed.

Lemma strip_line_end t : strip (t ++ [CR; LF]) = strip t.
Proof.
  change (t ++ [CR; LF]) with (t ++ [CR] ++ [LF]). rewrite app_assoc.
  rewrite strip_app_space by reflexivity. now apply strip_app_space.
Qed.

Lemma handle_no_traceback t st :
  no_traceback t -> handle_potential_invalid_data t st = (Returned tt, st).
Proof.
  intros H. unfold handle_potential_invalid_data.
  destruct (length (fault_lines t) <=? 0); [reflexivity|].
  rewrite first_traceback_none; [reflexivity|].
  intros x Hx. apply in_seq in Hx. apply H. lia.
Qed.

Lemma first_read_chunks st echo reply rest :
  inbuf st = [] -> feed st = echo :: reply :: rest ->
  taken_whole [x0a] echo -> taken_whole until_sequence reply ->
  first_read true st
  = (Returned reply,
     mkState (timeout st) [] rest
             (trace st ++ [ReadLine echo; ReadUntil reply])
             (disk st) (disk_writable st) (disk_opens st) (_members st)).
Proof.
  intros Hi Hf He Hr. unfold taken_whole in *.
  unfold first_read, conn_readline, conn_read_until, port_read, bind.
  rewrite Hi, Hf. cbn [hd tl app]. rewrite He.
  cbn [log_event inbuf feed hd tl app timeout trace disk disk_writable disk_opens
       _members].
  rewrite Hr.
  cbn [when flush_input log_event ret inbuf feed timeout trace disk
       disk_writable disk_opens _members].
  now rewrite <- app_assoc.
Qed.

End Framing.

Lemma execute_default_framed :
  forall command echo out t rest st,
    feed st = echo :: framed out :: rest ->
    taken_whole [x0a] echo ->
    taken_whole Connection.until_sequence (framed out) ->
    decode out = Some t ->
    occurs (py ">>> ") t = false ->
    strip t = t ->
    no_traceback t ->
    Connection.execute_default command st
    = (Returned (RStr t), answered command echo (framed out) rest st).
Proof.
  intros command echo out t rest st Hf He Hr Hd Ho Hs Hn.
  unfold Connection.execute_default. rewrite execute_eq.
  rewrite (readlines_eq true true true true (sent command None st)
             (framed out)
             (mkState (timeout st) [] rest
                (trace (sent command None st)
                 ++ [ReadLine echo; ReadUntil (framed out)])
                (disk st) (disk_writable st) (disk_opens st) (_members st))).
  - unfold after_read. rewrite (decode_framed out t Hd).
    rewrite (replace_prompt t Ho), strip_line_end, Hs.
    cbn [when]. unfold bind. rewrite (handle_no_traceback t _ Hn).
    unfold ret, with_timeout, answered, sent.
    cbn [timeout inbuf feed trace disk disk_writable disk_opens _members].
    now rewrite <- app_assoc.
  - apply (first_read_chunks (sent command None st) echo (framed out) rest);
      auto.
Qed.

(** [X8]. The framing of a reply. When the peer sends the echo line and
    then the output [out], a line end and the prompt, and the text [t] of
    the output holds no prompt, has no white space at its ends and no
    traceback, [execute] returns exactly [t]: the echo line is dropped and
    the line end and the prompt are cut off. It leaves the timeout as it
    was and the input empty, has used just these two entries of the feed,
    and has written the command once. *)
Theorem execute_returns_framed_output :
  forall command echo out t rest st,
    feed st = echo :: framed out :: rest ->
    taken_whole [x0a] echo ->
    taken_whole Connection.until_sequence (framed out) ->
    decode out = Some t ->
    occurs (py ">>> ") t = false ->
    strip t = t ->
    no_traceback t ->
    Connection.execute_default command st
    = (Returned (RStr t), answered command echo (framed out) rest st).
Proof. exact execute_default_framed. Qed.

(** [X8]: the command [6*7] answered with [42]. *)
Lemma execute_returns_framed_output_witness :
  Connection.execute_default (py "6*7") (with_feed (answer (pyb "42")) idle)
  = (Returned (RStr (py "42")),
     answered (py "6*7") (pyb "echo" ++ CRLF) (framed (pyb "42")) []
              (with_feed (answer (pyb "42")) idle)).
Proof.
  apply (execute_returns_framed_output (py "6*7") (pyb "echo" ++ CRLF)
           (pyb "42") (py "42") [] (with_feed (answer (pyb "42")) idle)).
  - reflexivity.
  - reflexivity.
  - reflexivity.
  - reflexivity.
  - reflexivity.
  - reflexivity.
  - intros x Hx. vm_compute in Hx. lia.
Defined.

(* ===================================================================== *)
(** ** The options of [readlines] *)
(* ===================================================================== *)

Section Options.

Import Connection.

Lemma readlines_unstripped l fl st data st1 t :
  first_read fl st = (Returned data, st1) -> decode data = Some t ->
  readlines false true l fl st = (Returned (RStr t), st1).
Proof.
  intros E D. rewrite (readlines_eq false true l fl st data st1 E).
  unfold after_read. now rewrite D.
Qed.

Lemma readlines_undecoded s l fl st data st1 t :
  first_read fl st = (Returned data, st1) -> decode data = Some t ->
  readlines s false l fl st = (Returned (RBytes data), st1).
Proof.
  intros E D. rewrite (readlines_eq s false l fl st data st1 E).
  unfold after_read. now rewrite D.
Qed.

Lemma lstrip_idempotent s : lstrip (lstrip s) = lstrip s.
Proof.
  induction s as [|c s IH]; [reflexivity|]. cbn [lstrip].
  destruct (cp_isspace c) eqn:E; [exact IH|]. cbn [lstrip]. now rewrite E.
Qed.

Lemma lstrip_app_nonspace a x :
  cp_isspace x = false -> lstrip (a ++ [x]) = lstrip a ++ [x].
Proof.
  intros Hx. induction a as [|y a IH]; cbn [app lstrip].
  - now rewrite Hx.
  - destruct (cp_isspace y); [exact IH | reflexivity].
Qed.

Lemma lstrip_head s :
  lstrip s = [] \/ exists x r, lstrip s = x :: r /\ cp_isspace x = false.
Proof.
  induction s as [|c s IH]; [now left|]. cbn [lstrip].
  destruct (cp_isspace c) eqn:E; [exact IH|]. right. eauto.
Qed.

Lemma lstrip_of_strip s : lstrip (strip s) = strip s.
Proof.
  unfold strip. destruct (lstrip_head s) as [-> | (x & r & -> & Hx)];
    [reflexivity|].
  cbn [rev]. rewrite (lstrip_app_nonspace (rev r) x Hx), rev_unit.
  cbn [lstrip]. now rewrite Hx.
Qed.

Lemma strip_idempotent s : strip (strip s) = strip s.
Proof.
  unfold strip at 1. rewrite lstrip_of_strip.
  unfold strip. now rewrite rev_involutive, lstrip_idempotent.
Qed.

Lemma readlines_text_is_stripped_bound n :
  forall l fl st r st',
    pending st < n ->
    readlines true true l fl st = (Returned r, st') ->
    r = RNone \/ exists t, r = RStr t /\ strip t = t.
Proof.
  induction n as [|n IH]; intros l fl st r st' Hn H; [lia|].
  destruct (first_read_spec fl st) as (echo & data & st1 & E & P & _).
  rewrite (readlines_eq true true l fl st data st1 E) in H.
  unfold after_read in H. destruct (decode data) as [t|] eqn:D.
  - unfold bind, ret in H.
    destruct (when l _ st1) as [[[]|e|] st2]; try discriminate.
    inversion H; subst. right. eexists. split; [reflexivity|].
    apply strip_idempotent.
  - unfold bind, ret in H.
    destruct (readlines true true l true st1) as [[r1|e|] st2];
      try discriminate.
    inversion H; subst. now left.
Qed.

End Options.

(** [X9]. With [strip] off, [readlines] hands out the decoded text as it
    came, prompt included, and does not run the fault check, whatever
    [look_for_exceptions] says; with [decode] off it hands out the raw
    bytes (which still have to be valid UTF-8 for that). *)
Theorem readlines_unstripped_is_unchecked :
  forall l fl st data st1 t,
    first_read fl st = (Returned data, st1) ->
    decode data = Some t ->
    Connection.readlines false true l fl st = (Returned (RStr t), st1)
    /\ forall s, Connection.readlines s false l fl st
                 = (Returned (RBytes data), st1).
Proof.
  intros l fl st data st1 t E D. split.
  - now apply readlines_unstripped with data.
  - intros s. now apply readlines_undecoded with t.
Qed.

(** [X9]: a reply that holds a traceback is returned as text. *)
Lemma readlines_unstripped_is_unchecked_witness :
  let st := with_feed (answer traceback_reply) idle in
  exists t st1,
    startswith t Connection.traceback_marker = true
    /\ Connection.readlines false true true true st = (Returned (RStr t), st1)
    /\ Connection.readlines true false true true st
       = (Returned (RBytes (framed traceback_reply)), st1).
Proof.
  cbv zeta.
  exists (py "Traceback (most recent call last):" ++ [CR; LF]
          ++ py "  File <stdin>, line 1, in <module>" ++ [CR; LF]
          ++ py "ZeroDivisionError: division by zero" ++ [CR; LF]
          ++ py ">>> ").
  exists (snd (first_read true (with_feed (answer traceback_reply) idle))).
  split; [reflexivity|].
  destruct (readlines_unstripped_is_unchecked true true
              (with_feed (answer traceback_reply) idle)
              (framed traceback_reply)
              (snd (first_read true (with_feed (answer traceback_reply) idle)))
              (py "Traceback (most recent call last):" ++ [CR; LF]
               ++ py "  File <stdin>, line 1, in <module>" ++ [CR; LF]
               ++ py "ZeroDivisionError: division by zero" ++ [CR; LF]
               ++ py ">>> "))
    as [H1 H2].
  - vm_compute. reflexivity.
  - vm_compute. reflexivity.
  - split; [exact H1 | exact (H2 true)].
Defined.

(** [X10]. What [execute] returns with its default options is [None] or
    text without white space at either end; it is never raw bytes. *)
Theorem execute_default_returns_stripped_text :
  forall command st r st',
    Connection.execute_default command st = (Returned r, st') ->
    r = RNone \/ exists t, r = RStr t /\ strip t = t.
Proof.
  intros command st r st' H.
  unfold Connection.execute_default in H. rewrite execute_eq in H.
  destruct (Connection.readlines true true true true (sent command None st))
    as [[r1|e|] st1] eqn:R; try discriminate.
  inversion H; subst.
  apply (readlines_text_is_stripped_bound
           (S (pending (sent command None st))) true true
           (sent command None st) r st1); [lia | exact R].
Qed.

(** [X10]: the reply [  42  ] comes back as [42]. *)
Lemma execute_default_returns_stripped_text_witness :
  let r := fst (Connection.execute_default (py "6*7")
                  (with_feed (answer (pyb "  42  ")) idle)) in
  r = Returned (RStr (py "42"))
  /\ (RStr (py "42") = RNone
      \/ exists t, RStr (py "42") = RStr t /\ strip t = t).
Proof.
  cbv zeta. split; [vm_compute; reflexivity|].
  apply (execute_default_returns_stripped_text (py "6*7")
           (with_feed (answer (pyb "  42  ")) idle) (RStr (py "42"))
           (snd (Connection.execute_default (py "6*7")
                   (with_feed (answer (pyb "  42  ")) idle)))).
  vm_compute. reflexivity.
Defined.

(** [X11]. The attributes of a shim class: what [_set_attr] stores under
    a name is what [__getattr__] returns for it, the other names are as
    they were, and a name that was never set raises [AttributeError] with
    the name in its message. *)
Theorem shim_class_attributes :
  forall me attr val st,
    ShimClass.__getattr__ (ShimClass._set_attr me attr val) attr st
    = (Returned val, st)
    /\ (forall other,
          attr <> other ->
          ShimClass.__getattr__ (ShimClass._set_attr me attr val) other st
          = ShimClass.__getattr__ me other st)
    /\ (dict_get me attr = None ->
        ShimClass.__getattr__ me attr st
        = (Raised (AttributeError
                     (py "Shim class has no attribute '" ++ attr ++ py "'")),
           st)).
Proof.
  intros me attr val st. unfold ShimClass.__getattr__, ShimClass._set_attr.
  split; [now rewrite dict_get_set_same|]. split.
  - intros other H. now rewrite (dict_get_set_other me attr val other H).
  - intros ->. reflexivity.
Qed.

(** [X11]: a shim class with [sleep] set, asked for [sleep] and for
    [display]. *)
Lemma shim_class_attributes_witness :
  ShimClass.__getattr__
    (ShimClass._set_attr [(py "sleep", VInt 1)] (py "NAME") (VStr (py "hello")))
    (py "sleep") idle
  = (Returned (VInt 1), idle)
  /\ ShimClass.__getattr__ [(py "sleep", VInt 1)] (py "display") idle
     = (Raised (AttributeError
                  (py "Shim class has no attribute 'display'")), idle).
Proof.
  destruct (shim_class_attributes [(py "sleep", VInt 1)] (py "NAME")
              (VStr (py "hello")) idle) as (_ & H2 & _).
  destruct (shim_class_attributes [(py "sleep", VInt 1)] (py "display")
              (VInt 0) idle) as (_ & _ & H3).
  split.
  - rewrite (H2 (py "sleep")); [reflexivity | vm_compute; discriminate].
  - apply H3. reflexivity.
Defined.

(* ===================================================================== *)
(** ** Integers: from [repr] and back *)
(* ===================================================================== *)

Section Integers.

Import Wrapper.

Lemma py_cons a s : py (String a s) = N_of_ascii a :: py s.
Proof. reflexivity. Qed.

Ltac uint_cases d IH :=
  induction d as [|d IH|d IH|d IH|d IH|d IH|d IH|d IH|d IH|d IH|d IH].

Lemma uint_digits_decimal d :
  forallb cp_isdecimal (py (NilEmpty.string_of_uint d)) = true.
Proof.
  uint_cases d IH; cbn [NilEmpty.string_of_uint]; [reflexivity|..];
    rewrite py_cons; cbn [forallb]; rewrite IH; reflexivity.
Qed.

Lemma uint_digits_acc d :
  forall acc,
    fold_left add_digit (py (NilEmpty.string_of_uint d)) (Z.pos acc)
    = Z.pos (Pos.of_uint_acc d acc).
Proof.
  uint_cases d IH; intros acc; cbn [NilEmpty.string_of_uint Pos.of_uint_acc];
    [reflexivity|..];
    rewrite py_cons; cbn [fold_left]; rewrite <- IH; f_equal;
    unfold add_digit; cbn [N_of_ascii N_of_digits]; lia.
Qed.

Lemma uint_digits_value d :
  fold_left add_digit (py (NilEmpty.string_of_uint d)) 0%Z = Z.of_uint d.
Proof.
  unfold Z.of_uint.
  uint_cases d IH; cbn [NilEmpty.string_of_uint Pos.of_uint];
    [reflexivity|..]; rewrite py_cons; cbn [fold_left];
    [ exact IH | .. ];
    match goal with
    | |- fold_left _ _ ?a = _ =>
        let v := eval vm_compute in a in change a with v
    end; rewrite uint_digits_acc; reflexivity.
Qed.

Lemma nilzero_digits d :
  exists c rest,
    py (NilZero.string_of_uint d) = c :: rest
    /\ cp_isdecimal c = true
    /\ forallb cp_isdecimal rest = true
    /\ fold_left add_digit (c :: rest) 0%Z = Z.of_uint d.
Proof.
  pose proof (uint_digits_decimal d) as Hd.
  pose proof (uint_digits_value d) as Hv.
  destruct d; cbn [NilZero.string_of_uint NilEmpty.string_of_uint] in *;
    [exists 48%N, []; repeat split|..];
    rewrite py_cons in *; cbn [forallb] in Hd;
    apply andb_prop in Hd; destruct Hd as [Hc Hr];
    eexists; eexists; (split; [reflexivity|]); repeat split; auto.
Qed.

(** The text [repr] writes for an integer that is not negative: a digit,
    then digits, whose value is the integer. *)
Lemma repr_int_digits z :
  (0 <= z)%Z ->
  exists c rest,
    repr_int z = c :: rest
    /\ cp_isdecimal c = true
    /\ forallb cp_isdecimal rest = true
    /\ fold_left add_digit (c :: rest) 0%Z = z.
Proof.
  intros Hz. unfold repr_int.
  pose proof (DecimalZ.of_to z) as R.
  destruct z as [|p|p]; [| |lia]; cbn [Z.to_int NilZero.string_of_int] in *.
  - exists 48%N, []. repeat split.
  - destruct (nilzero_digits (Pos.to_uint p)) as (c & rest & E & Hc & Hr & Hv).
    exists c, rest. cbn [Z.of_int] in R. repeat split; auto. congruence.
Qed.

Lemma repr_int_negative z :
  (z < 0)%Z -> exists rest, repr_int z = 45%N :: rest.
Proof.
  intros Hz. unfold repr_int. destruct z as [|p|p]; [lia|lia|].
  cbn [Z.to_int NilZero.string_of_int]. rewrite py_cons. eauto.
Qed.

Lemma decimal_bounds c :
  cp_isdecimal c = true -> (48 <= c <= 57)%N.
Proof.
  unfold cp_isdecimal. intros H. apply andb_prop in H. destruct H as [A B].
  apply N.leb_le in A, B. lia.
Qed.

Lemma decimal_numeric c : cp_isdecimal c = true -> cp_isnumeric c = true.
Proof. unfold cp_isnumeric, cp_isdigit. now intros ->. Qed.

Lemma decimal_all_numeric s :
  forallb cp_isdecimal s = true -> forallb cp_isnumeric s = true.
Proof.
  induction s as [|c s IH]; [reflexivity|]. cbn [forallb]. intros H.
  apply andb_prop in H. destruct H as [Hc Hs].
  now rewrite (decimal_numeric c Hc), (IH Hs).
Qed.

Lemma decimal_all_digit s :
  forallb cp_isdecimal s = true -> forallb cp_isdigit s = true.
Proof.
  induction s as [|c s IH]; [reflexivity|]. cbn [forallb]. intros H.
  apply andb_prop in H. destruct H as [Hc Hs].
  unfold cp_isdigit at 1. now rewrite Hc, (IH Hs).
Qed.

Lemma py_int_repr_int z : (0 <= z)%Z -> py_int (repr_int z) = Some z.
Proof.
  intros Hz. destruct (repr_int_digits z Hz) as (c & rest & E & Hc & Hr & Hv).
  unfold py_int. rewrite E. cbn [forallb]. rewrite Hc, Hr. cbn [andb].
  f_equal. exact Hv.
Qed.

(** A text that begins with a decimal digit or a minus sign is neither
    bracketed nor quoted. *)
Lemma plain_start c rest :
  (48 <= c <= 57)%N \/ c = 45%N ->
  startswith (c :: rest) (py "<") = false
  /\ quoted (c :: rest) = false
  /\ startswith (c :: rest) [SQUOTE] = false.
Proof.
  intros H. unfold quoted. cbn [py map list_ascii_of_string startswith].
  change (N_of_ascii "<") with 60%N. unfold DQUOTE, SQUOTE.
  assert (E1 : (c =? 60)%N = false) by (apply N.eqb_neq; lia).
  assert (E2 : (c =? 34)%N = false) by (apply N.eqb_neq; lia).
  assert (E3 : (c =? 39)%N = false) by (apply N.eqb_neq; lia).
  rewrite E1, E2, E3. repeat split.
Qed.

Lemma scan_member_info scan my_path me member r st st' :
  strip member <> [] ->
  Connection.execute_default (repr_command my_path (strip member)) st
  = (Returned (RStr r), st') ->
  scan_member scan my_path me member st
  = (let info := slice r (Some 1%Z) (Some (-1)%Z) in
     if startswith info (py "<") && endswith info (py ">")
     then scan_member scan my_path me member st
     else if quoted info
          then (Returned (ShimClass._set_attr me (strip member)
                            (VStr (slice info (Some 1%Z) (Some (-1)%Z)))),
                st')
          else if isnumeric info
               then match py_int info with
                    | Some z => (Returned (ShimClass._set_attr
                                             me (strip member) (VInt z)), st')
                    | None => (Raised ValueError, st')
                    end
               else (Returned me, st')).
Proof.
  intros Hm He. cbv zeta.
  destruct (startswith _ _ && endswith _ _) eqn:B; [reflexivity|].
  unfold scan_member.
  destruct (strip member) as [|c m] eqn:Em; [congruence|].
  cbn [length Nat.leb]. unfold bind at 1. unfold repr_command in He.
  rewrite He. unfold bind at 1. unfold subscript, ret at 1.
  rewrite B.
  destruct (quoted _); [reflexivity|].
  destruct (isnumeric _); [|reflexivity].
  destruct (py_int _); reflexivity.
Qed.

End Integers.

(** [X12]. Integers that are not negative come back from their decimal
    text: [int] of the text that [repr] writes for [z] is [z],
    [_determine_variable_type] returns the integer [z] for it, and the
    scan stores the integer [z] for a member whose fetched text it is. *)
Theorem decimal_text_decodes_to_integer :
  forall z,
    (0 <= z)%Z ->
    py_int (repr_int z) = Some z
    /\ (forall (F : Type) (to_float : list N -> option F),
          _determine_variable_type to_float (repr_int z) = inr (DInt z))
    /\ (forall scan my_path me member r st st',
          strip member <> [] ->
          Connection.execute_default (repr_command my_path (strip member)) st
          = (Returned (RStr r), st') ->
          slice r (Some 1%Z) (Some (-1)%Z) = repr_int z ->
          Wrapper.scan_member scan my_path me member st
          = (Returned (ShimClass._set_attr me (strip member) (VInt z)), st')).
Proof.
  intros z Hz.
  pose proof (py_int_repr_int z Hz) as P.
  destruct (repr_int_digits z Hz) as (c & rest & E & Hc & Hr & _).
  destruct (plain_start c rest (or_introl (decimal_bounds c Hc)))
    as (S1 & Q & S2).
  split; [exact P|]. split.
  - intros F to_float. unfold _determine_variable_type.
    rewrite P, E, S2. cbn [andb]. unfold isdigit, all_chars.
    cbn [forallb]. unfold cp_isdigit at 1.
    now rewrite Hc, (decimal_all_digit rest Hr).
  - intros scan my_path me member r st st' Hm He Hs.
    rewrite (scan_member_info scan my_path me member r st st' Hm He).
    cbv zeta. rewrite Hs, P, E, S1, Q. cbn [andb].
    unfold isnumeric, all_chars. cbn [forallb].
    now rewrite (decimal_numeric c Hc), (decimal_all_numeric rest Hr).
Qed.

(** [X12]: the integer [1200], and the member [N] whose repr is [1200]. *)
Lemma decimal_text_decodes_to_integer_witness :
  py_int (repr_int 1200) = Some 1200%Z
  /\ Wrapper.scan_member (fun _ _ => ret (VShimClass []))
                         (py "microbit") [] (py "N") number_reply_state
     = (Returned [(py "N", VInt 1200)],
        snd (Connection.execute_default (py "repr(microbit.N)")
                                        number_reply_state)).
Proof.
  destruct (decimal_text_decodes_to_integer 1200 ltac:(lia)) as (H1 & _ & H3).
  split; [exact H1|].
  apply (H3 (fun _ _ => ret (VShimClass [])) (py "microbit") [] (py "N")
            (py "'1200'")).
  - vm_compute; discriminate.
  - vm_compute; reflexivity.
  - vm_compute; reflexivity.
Defined.

(** [X13]. Negative integers are not read as integers: the text [repr]
    writes for one begins with a minus sign, so
    [_determine_variable_type] passes it on to [float], and the scan
    leaves a member with such a value out of the shim class. *)
Theorem negative_integer_is_not_decoded :
  forall z,
    (z < 0)%Z ->
    (forall (F : Type) (to_float : list N -> option F),
        _determine_variable_type to_float (repr_int z)
        = match to_float (repr_int z) with
          | Some f => inr (DFloat f)
          | None => inl (Exception (py "*** FIXME: do something here ***"))
          end)
    /\ (forall scan my_path me member r st st',
          strip member <> [] ->
          Connection.execute_default (repr_command my_path (strip member)) st
          = (Returned (RStr r), st') ->
          slice r (Some 1%Z) (Some (-1)%Z) = repr_int z ->
          Wrapper.scan_member scan my_path me member st = (Returned me, st')).
Proof.
  intros z Hz. destruct (repr_int_negative z Hz) as [rest E].
  destruct (plain_start 45%N rest (or_intror eq_refl)) as (S1 & Q & S2).
  split.
  - intros F to_float. unfold _determine_variable_type.
    rewrite E, S2. cbn [andb]. reflexivity.
  - intros scan my_path me member r st st' Hm He Hs.
    rewrite (scan_member_info scan my_path me member r st st' Hm He).
    cbv zeta. rewrite Hs, E, S1, Q. cbn [andb]. reflexivity.
Qed.

(** [X13]: the member [N] whose repr is [-5]. *)
Lemma negative_integer_is_not_decoded_witness :
  Wrapper.scan_member (fun _ _ => ret (VShimClass []))
                      (py "microbit") [] (py "N") negative_reply_state
  = (Returned [],
     snd (Connection.execute_default (py "repr(microbit.N)")
                                     negative_reply_state)).
Proof.
  destruct (negative_integer_is_not_decoded (-5) ltac:(lia)) as (_ & H2).
  apply (H2 (fun _ _ => ret (VShimClass [])) (py "microbit") [] (py "N")
            (py "'-5'")).
  - vm_compute; discriminate.
  - vm_compute; reflexivity.
  - vm_compute; reflexivity.
Defined.

(* ===================================================================== *)
(** ** The commit hash: what comes out *)
(* ===================================================================== *)

Section HashToken.

Import Wrapper.

Lemma while_numeric_ge rest :
  forall i j, while_numeric rest i = Some j -> (i <= j)%Z.
Proof.
  induction rest as [|c rest IH]; intros i j H; [discriminate|].
  cbn [while_numeric] in H. destruct (cp_isnumeric c).
  - apply IH in H. lia.
  - inversion H. lia.
Qed.

Lemma skip_field_ge lines i st j st' :
  skip_field lines i st = (Returned j, st') -> st' = st /\ (i < j)%Z.
Proof.
  unfold skip_field.
  destruct (while_numeric _ _) as [k|] eqn:W; [|discriminate].
  apply while_numeric_ge in W. unfold ret. intros [= <- <-]. split; [auto|lia].
Qed.

Lemma find_first_char c s :
  forall k, find s [c] = k -> (0 <= k)%Z ->
  exists pre post,
    s = pre ++ c :: post /\ k = Z.of_nat (length pre)
    /\ contains c pre = false.
Proof.
  induction s as [|d s IH]; intros k H Hk.
  - cbn in H. lia.
  - cbn [find startswith] in H. rewrite andb_true_r in H.
    destruct (d =? c)%N eqn:E.
    + apply N.eqb_eq in E. subst d. exists [], s. subst k. auto.
    + destruct (find s [c] <? 0)%Z eqn:L; [lia|].
      apply Z.ltb_ge in L.
      destruct (IH (find s [c]) eq_refl L) as (pre & post & -> & F & C).
      exists (d :: pre), post. split; [reflexivity|]. split.
      * cbn [length]. lia.
      * unfold contains in *. cbn [existsb]. now rewrite N.eqb_sym, E, C.
Qed.

Lemma slice_up_to lines i k pre c post :
  (0 <= i)%Z ->
  slice lines (Some i) None = pre ++ c :: post ->
  k = Z.of_nat (length pre) ->
  slice lines (Some i) (Some (i + k)%Z) = pre.
Proof.
  intros Hi H ->. unfold slice, clamp in *.
  destruct (i <? 0)%Z eqn:L1; [apply Z.ltb_lt in L1; lia|].
  destruct (i + Z.of_nat (length pre) <? 0)%Z eqn:L2;
    [apply Z.ltb_lt in L2; lia|].
  set (len := Z.of_nat (length lines)) in *.
  set (n := Z.to_nat (Z.min i len)) in *.
  rewrite firstn_all2 in H by (rewrite length_skipn; lia).
  assert (Ln : length (skipn n lines) = length pre + S (length post))
    by (rewrite H, length_app; reflexivity).
  rewrite length_skipn in Ln.
  replace (Z.to_nat (Z.min (i + Z.of_nat (length pre)) len - Z.min i len))
    with (length pre) by lia.
  rewrite H, firstn_app, Nat.sub_diag, firstn_all. cbn [firstn].
  apply app_nil_r.
Qed.

Lemma commit_hash_token lines st h st' :
  commit_hash lines st = (Returned h, st') ->
  st' = st /\ contains SPACE h = false.
Proof.
  unfold commit_hash.
  destruct (find lines (py "MicroPython v") <? 0)%Z eqn:L; [discriminate|].
  apply Z.ltb_ge in L. unfold bind.
  destruct (skip_field lines _ st) as [[i1|e|] s1] eqn:S1; try discriminate.
  apply skip_field_ge in S1. destruct S1 as [-> G1].
  destruct (skip_field lines i1 st) as [[i2|e|] s2] eqn:S2; try discriminate.
  apply skip_field_ge in S2. destruct S2 as [-> G2].
  destruct (skip_field lines i2 st) as [[i3|e|] s3] eqn:S3; try discriminate.
  apply skip_field_ge in S3. destruct S3 as [-> G3].
  destruct (find (slice lines (Some i3) None) (py " ") <? 0)%Z eqn:F;
    [discriminate|].
  apply Z.ltb_ge in F. unfold ret. intros [= <- <-]. split; [reflexivity|].
  change (py " ") with [SPACE] in *.
  destruct (find_first_char SPACE (slice lines (Some i3) None) _ eq_refl F)
    as (pre & post & E & K & C).
  rewrite (slice_up_to lines i3 _ pre SPACE post ltac:(lia) E K). exact C.
Qed.

End HashToken.

(** [X14]. Whatever the boot text, the commit hash that is extracted
    holds no space, and the extraction changes nothing in the state of
    the connection or the wrapper. *)
Theorem commit_hash_has_no_space :
  forall lines st h st',
    Wrapper.commit_hash lines st = (Returned h, st') ->
    st' = st /\ contains SPACE h = false.
Proof. intros lines st h st'. apply commit_hash_token. Qed.

(** [X14]: the boot text of the build [gbe020eb]. *)
Lemma commit_hash_has_no_space_witness :
  contains SPACE (py "gbe020eb") = false.
Proof.
  apply (commit_hash_has_no_space
           (py "MPY: soft reboot MicroPython v1.7-9-gbe020eb on 2016-04-18")
           idle (py "gbe020eb") idle).
  vm_compute. reflexivity.
Defined.

(** [X15]. When the bytes that answer [dir(...)] do not decode and the
    retry returns, [execute] hands [None] to the scan, which then fails on
    the subscript: [_scan_member_of] raises [TypeError], with the port in
    the state the retry left. *)
Theorem scan_fails_on_undecodable_listing :
  forall m mem st data st1 r st2,
    first_read true (sent (dir_command (path_of m mem)) None st)
    = (Returned data, st1) ->
    decode data = None ->
    Connection.readlines true true true true st1 = (Returned r, st2) ->
    Wrapper._scan_member_of m mem st
    = (Raised TypeError, with_timeout (timeout st) st2).
Proof.
  intros m mem st data st1 r st2 E D R.
  unfold Wrapper._scan_member_of. cbn [Wrapper.scan_member_of_fuel].
  change (match mem with
          | Some m0 => m ++ py "." ++ m0
          | None => m
          end) with (path_of m mem).
  change (py "dir(" ++ path_of m mem ++ py ")")
    with (dir_command (path_of m mem)).
  unfold bind at 1. unfold Connection.execute_default.
  rewrite execute_eq.
  rewrite (readlines_eq true true true true _ data st1 E).
  unfold after_read. rewrite D. unfold bind at 1. rewrite R.
  reflexivity.
Qed.

(** [X15]: the listing of [microbit] arrives as a stray byte, then
    nothing. *)
Lemma scan_fails_on_undecodable_listing_witness :
  fst (Wrapper._scan_member_of (py "microbit") None
         (with_feed (noise [[xff]]) idle))
  = Raised TypeError.
Proof.
  rewrite (scan_fails_on_undecodable_listing
             (py "microbit") None (with_feed (noise [[xff]]) idle) [xff]
             (snd (first_read true
                     (sent (dir_command (py "microbit")) None
                           (with_feed (noise [[xff]]) idle))))
             (RStr [])
             (snd (Connection.readlines true true true true
                     (snd (first_read true
                             (sent (dir_command (py "microbit")) None
                                   (with_feed (noise [[xff]]) idle))))))).
  - reflexivity.
  - vm_compute. reflexivity.
  - reflexivity.
  - vm_compute. reflexivity.
Defined.

(* ===================================================================== *)
(** ** Carriage returns, calls, and the first reads of a session *)
(* ===================================================================== *)

Section Further.

Import Connection.

Lemma replace_from_char_filter c s :
  replace_from [c] [] 0 s = filter (fun x => negb (x =? c)%N) s.
Proof.
  induction s as [|x s IH]; [reflexivity|].
  cbn [replace_from startswith filter length Nat.sub app].
  rewrite andb_true_r.
  destruct (x =? c)%N; cbn [negb]; now rewrite IH.
Qed.

Lemma replace_char_twice c s :
  replace (replace s [c] []) [c] [] = replace s [c] [].
Proof.
  unfold replace. rewrite !replace_from_char_filter.
  induction s as [|x s IH]; [reflexivity|]. cbn [filter].
  destruct (negb (x =? c)%N) eqn:E; [|exact IH].
  cbn [filter]. now rewrite E, IH.
Qed.

Lemma slice_short r :
  length r <= 4 -> slice r (Some 2%Z) (Some (-2)%Z) = [].
Proof.
  intros H.
  destruct r as [|a [|b [|c [|d [|e r]]]]]; try reflexivity.
  cbn [length] in H. lia.
Qed.

Lemma soft_reset_flushed st :
  soft_reset false (snd (flush_input st)) = (Returned tt, after_soft_reset st).
Proof.
  unfold soft_reset, write, flush_input, bind, log_event, after_soft_reset.
  cbn [snd when ret timeout inbuf feed trace disk disk_writable disk_opens _members].
  now rewrite <- !app_assoc.
Qed.

End Further.

(** [X16]. Carriage returns make no difference to the fault check: a
    text and the same text without its carriage returns are treated
    alike, so a reply with CR LF line ends is checked like one with LF. *)
Theorem fault_check_ignores_carriage_returns :
  forall data st,
    Connection.handle_potential_invalid_data (replace data [CR] []) st
    = Connection.handle_potential_invalid_data data st.
Proof.
  intros data st.
  unfold Connection.handle_potential_invalid_data, Connection.fault_lines.
  now rewrite replace_char_twice.
Qed.

(** [X17]. A call is forwarded as one command and its answer comes back
    as text, undecoded: with a well-behaved peer (echo line, then the
    output, a line end and the prompt) [call] returns the text of the
    output just as [execute] would for the expression of the call. *)
Theorem call_returns_output_text :
  forall path args kwargs echo out t rest st,
    feed st = echo :: framed out :: rest ->
    taken_whole [x0a] echo ->
    taken_whole Connection.until_sequence (framed out) ->
    decode out = Some t ->
    occurs (py ">>> ") t = false ->
    strip t = t ->
    no_traceback t ->
    ShimFunction.call path args kwargs st
    = (Returned (RStr t),
       answered (ShimFunction.call_expr path args kwargs) echo (framed out)
                rest st).
Proof.
  intros path args kwargs echo out t rest st.
  unfold ShimFunction.call. apply execute_default_framed.
Qed.

(** [X17]: [microbit.temperature()] answered with [21]: the caller gets
    the text [21], not the integer. *)
Lemma call_returns_output_text_witness :
  fst (ShimFunction.call (py "microbit.temperature") [] []
         (with_feed (answer (pyb "21")) idle))
  = Returned (RStr (py "21")).
Proof.
  rewrite (call_returns_output_text (py "microbit.temperature") [] []
             (pyb "echo" ++ CRLF) (pyb "21") (py "21") []
             (with_feed (answer (pyb "21")) idle)).
  - reflexivity.
  - reflexivity.
  - reflexivity.
  - reflexivity.
  - reflexivity.
  - reflexivity.
  - reflexivity.
  - intros x Hx. vm_compute in Hx. lia.
Defined.

(** [X18]. When the boot text does not decode and the retry returns, the
    load raises [TypeError]: [readlines] hands [None] to the join. The
    cache file and [_members] are not looked at. *)
Theorem load_fails_on_undecodable_boot_text :
  forall st data st1 r st2,
    first_read true (after_soft_reset st) = (Returned data, st1) ->
    decode data = None ->
    Connection.readlines true true true true st1 = (Returned r, st2) ->
    Wrapper._load_ubit_module_cache st = (Raised TypeError, st2).
Proof.
  intros st data st1 r st2 E D R.
  unfold Wrapper._load_ubit_module_cache, Wrapper.read_commit_hash.
  unfold bind at 1. unfold bind at 1.
  change (Connection.flush_input st)
    with (Returned tt, snd (Connection.flush_input st)).
  cbv iota. unfold bind at 1. rewrite soft_reset_flushed.
  unfold bind at 1.
  rewrite (readlines_eq true true true true _ data st1 E).
  unfold after_read. rewrite D. unfold bind at 1. rewrite R.
  reflexivity.
Qed.

(** [X18]: a stray byte is all the peer sends at boot. *)
Lemma load_fails_on_undecodable_boot_text_witness :
  fst (Wrapper._load_ubit_module_cache (with_feed (noise [[xff]]) idle))
  = Raised TypeError.
Proof.
  rewrite (load_fails_on_undecodable_boot_text
             (with_feed (noise [[xff]]) idle) [xff]
             (snd (first_read true
                     (after_soft_reset (with_feed (noise [[xff]]) idle))))
             (RStr [])
             (snd (Connection.readlines true true true true
                     (snd (first_read true
                             (after_soft_reset
                                (with_feed (noise [[xff]]) idle))))))).
  - reflexivity.
  - vm_compute. reflexivity.
  - reflexivity.
  - vm_compute. reflexivity.
Defined.

(** [X19]. A listing of at most four characters (the empty list [[]], or
    an empty reply) gives an empty shim class, and the scan asks the peer
    nothing more. *)
Theorem empty_listing_gives_empty_class :
  forall m mem st r st1,
    Connection.execute_default (dir_command (path_of m mem)) st
    = (Returned (RStr r), st1) ->
    length r <= 4 ->
    Wrapper._scan_member_of m mem st = (Returned (VShimClass []), st1).
Proof.
  intros m mem st r st1 E L.
  unfold Wrapper._scan_member_of. cbn [Wrapper.scan_member_of_fuel].
  change (match mem with
          | Some m0 => m ++ py "." ++ m0
          | None => m
          end) with (path_of m mem).
  change (py "dir(" ++ path_of m mem ++ py ")")
    with (dir_command (path_of m mem)).
  unfold bind at 1. rewrite E. unfold bind at 1.
  unfold Wrapper.subscript, ret at 1.
  rewrite (slice_short r L).
  reflexivity.
Qed.

(** [X19]: the peer lists nothing for [microbit.display]. *)
Lemma empty_listing_gives_empty_class_witness :
  Wrapper._scan_member_of (py "microbit") (Some (py "display"))
                          (with_feed (answer (pyb "[]")) idle)
  = (Returned (VShimClass []),
     snd (Connection.execute_default (py "dir(microbit.display)")
                                     (with_feed (answer (pyb "[]")) idle))).
Proof.
  apply (empty_listing_gives_empty_class (py "microbit") (Some (py "display"))
           (with_feed (answer (pyb "[]")) idle) (py "[]")).
  - vm_compute. reflexivity.
  - vm_compute. lia.
Defined.
